(** * Blockchain chat CLI: tool dispatch and the function-calling loop

    A shallow embedding of [src/src/cli.ts] (the current CLI) and of the
    earlier variant [src/unnamed/part_001] (module [V001]).

    Effects are modelled by a state-and-exception monad [ST]: JavaScript
    exceptions ([throw], rejected promises) are the [inl] results, and the
    observable effects of the program are appended to a trace of [Event]s.
    The two remote peers are oracles that see the whole trace so far:
    [api] plays the Blockscout client [useApi], [send] plays the Gemini
    [Chat.sendMessage] (and [gen] the stateless [generateContent] of the
    earlier variant). A scripted model is thus any function of the trace.

    [debug] is modelled as a no-op (the run with DEBUG unset). Two counter
    events mark the places the source's debug calls mark:
    [EDispatch] at the entry of [executeFunction] and [EHandler] at the
    entry of a tool handler. *)

From Stdlib Require Import String Ascii List ZArith Bool Arith Lia.
Import ListNotations.
Set Warnings "-register-all".
Open Scope string_scope.
Open Scope list_scope.

(** String concatenation (template literals, [+] on strings). *)
Infix "+++" := String.append (at level 60, right associativity).

(** ** JavaScript values *)

Inductive jv : Type :=
| JUndef
| JNull
| JBool (b : bool)
| JNum (z : Z)
| JStr (s : string)
| JArr (l : list jv)
| JObj (fs : list (string * jv)).

(** JS truthiness ([NaN] is outside the integer model). *)
Definition truthy (v : jv) : bool :=
  match v with
  | JUndef | JNull => false
  | JBool b => b
  | JNum z => negb (Z.eqb z 0)
  | JStr s => negb (String.eqb s EmptyString)
  | JArr _ | JObj _ => true
  end.

(** [a || b] on values already evaluated. *)
Definition jor (a b : jv) : jv := if truthy a then a else b.

Fixpoint assoc (k : string) (fs : list (string * jv)) : option jv :=
  match fs with
  | [] => None
  | (k', v) :: fs' => if String.eqb k k' then Some v else assoc k fs'
  end.

(** Property read [v.k] on a value that is not [null]/[undefined]. *)
Definition field (v : jv) (k : string) : jv :=
  match v with
  | JObj fs => match assoc k fs with Some x => x | None => JUndef end
  | JArr l => if String.eqb k "length" then JNum (Z.of_nat (length l)) else JUndef
  | JStr s => if String.eqb k "length" then JNum (Z.of_nat (String.length s)) else JUndef
  | _ => JUndef
  end.

(** Strict equality with a string literal: [v === 's']. *)
Definition is_str (v : jv) (s : string) : bool :=
  match v with JStr t => String.eqb t s | _ => false end.

(** ** Exceptions, events and the monad *)

(** A thrown value: an [Error] object (name, message) or anything else. *)
Inductive exn : Type :=
| JSError (name msg : string)
| JSThrown (v : jv).

(** [error instanceof Error ? error.message : 'Unknown error'] *)
Definition exn_message (e : exn) : string :=
  match e with
  | JSError _ m => m
  | JSThrown _ => "Unknown error"
  end.

Definition type_error (m : string) : exn := JSError "TypeError" m.

(** An outbound Blockscout request: [useApi(path, method, options)]. *)
Record Req : Type := mkReq { r_path : string; r_method : string; r_options : jv }.

(** The response of [useApi]: its HTTP status and decoded body. *)
Record Resp : Type := mkResp { status : nat; data : jv }.

(** A Gemini [FunctionCall]: [id?], [name?], [args?] (absent = [JUndef]). *)
Record FunctionCall : Type :=
  mkCall { fc_id : option string; fc_name : option string; fc_args : jv }.

(** A [functionResponse] part sent back to the model. *)
Record FnResponse : Type :=
  mkFnResp { fr_name : option string; fr_id : option string; fr_result : jv }.

(** The [message] argument of [chat.sendMessage]. *)
Inductive Msg : Type :=
| MText (s : string)
| MParts (l : list FnResponse).

(** History entries of the earlier variant: [{role, parts}]. *)
Inductive HPart : Type :=
| HText (s : string)
| HCall (fc : FunctionCall)
| HResp (name : option string) (result : jv).

Record Entry : Type := mkEntry { role : string; parts : list HPart }.

Inductive Event : Type :=
| EDispatch (fc : FunctionCall)     (* executeFunction entered *)
| EHandler (name : string)          (* a tool handler entered *)
| EApi (r : Req)                    (* useApi request issued *)
| ESend (m : Msg)                   (* chat.sendMessage issued *)
| EGen (h : list Entry)             (* generateContent issued with this history *)
| ELog (s : string)                 (* console.log *)
| EErr (s : string).                (* console.error *)

Definition ST (S A : Type) : Type := S -> (exn + A) * S.

Section Monad.
Context {S : Type}.

Definition ret {A} (a : A) : ST S A := fun s => (inr a, s).

Definition bind {A B} (m : ST S A) (k : A -> ST S B) : ST S B :=
  fun s => match m s with
           | (inl e, s') => (inl e, s')
           | (inr a, s') => k a s'
           end.

Definition throw {A} (e : exn) : ST S A := fun s => (inl e, s).

(** [try { m } catch (e) { c(e) }]: effects of [m] are kept. *)
Definition try_catch {A} (m : ST S A) (c : exn -> ST S A) : ST S A :=
  fun s => match m s with
           | (inl e, s') => c e s'
           | r => r
           end.
End Monad.

Notation "x <- m ;; k" := (bind m (fun x => k))
  (at level 61, m at next level, right associativity).
Notation "m ;;; k" := (bind m (fun _ => k))
  (at level 61, right associativity).

Definition M := ST (list Event).

Definition emit (ev : Event) : M unit := fun h => (inr tt, h ++ [ev]).

(** Data processing: reads of the response that may throw, no other effect. *)
Definition P := ST unit.

Definition run_pure {A} (m : P A) : M A := fun h => (fst (m tt), h).

(** [v.k] with the TypeError on [null]/[undefined]. *)
Definition prop {S} (v : jv) (k : string) : ST S jv :=
  match v with
  | JUndef => throw (type_error ("Cannot read properties of undefined (reading '" +++ k +++ "')"))
  | JNull => throw (type_error ("Cannot read properties of null (reading '" +++ k +++ "')"))
  | _ => ret (field v k)
  end.

(** [v?.k] *)
Definition oprop {S} (v : jv) (k : string) : ST S jv :=
  match v with
  | JUndef | JNull => ret JUndef
  | _ => prop v k
  end.

(** [a || b] with [b] evaluated only when [a] is falsy. *)
Definition jorM {S} (a : jv) (mb : ST S jv) : ST S jv :=
  if truthy a then ret a else mb.

(** ** Arrays and strings *)

Fixpoint mapM {S A B} (f : A -> ST S B) (l : list A) : ST S (list B) :=
  match l with
  | [] => ret []
  | x :: r => y <- f x ;; ys <- mapM f r ;; ret (y :: ys)
  end.

(** End index of [slice(0, n)] on a sequence of length [len]. *)
Definition slice_end (len : nat) (n : Z) : nat :=
  Z.to_nat (if Z.ltb n 0 then Z.max 0 (Z.of_nat len + n) else Z.min n (Z.of_nat len)).

(** [v.slice(0, n)] *)
Definition slice0 {S} (v : jv) (n : Z) : ST S jv :=
  match v with
  | JArr l => ret (JArr (firstn (slice_end (length l) n) l))
  | JStr s => ret (JStr (substring 0 (slice_end (String.length s) n) s))
  | JUndef | JNull => prop v "slice" ;;; ret JUndef
  | _ => throw (type_error "slice is not a function")
  end.

(** [v.map(f)] *)
Definition jmap {S} (f : jv -> ST S jv) (v : jv) : ST S jv :=
  match v with
  | JArr l => ys <- mapM f l ;; ret (JArr ys)
  | JUndef | JNull => prop v "map" ;;; ret JUndef
  | _ => throw (type_error "map is not a function")
  end.

Fixpoint findM {S} (p : jv -> ST S bool) (l : list jv) : ST S jv :=
  match l with
  | [] => ret JUndef
  | x :: r => b <- p x ;; if b then ret x else findM p r
  end.

(** [v.find(p)] *)
Definition jfind {S} (p : jv -> ST S bool) (v : jv) : ST S jv :=
  match v with
  | JArr l => findM p l
  | JUndef | JNull => prop v "find" ;;; ret JUndef
  | _ => throw (type_error "find is not a function")
  end.

Definition ends_with_str (s suf : string) : bool :=
  let n := String.length s in
  let m := String.length suf in
  Nat.leb m n && String.eqb (substring (n - m) m s) suf.

(** [v.endsWith(suf)] *)
Definition ends_with {S} (v : jv) (suf : string) : ST S bool :=
  match v with
  | JStr s => ret (ends_with_str s suf)
  | JUndef | JNull => prop v "endsWith" ;;; ret false
  | _ => throw (type_error "endsWith is not a function")
  end.

Definition is_digit (c : ascii) : bool :=
  let n := nat_of_ascii c in Nat.leb 48 n && Nat.leb n 57.

Fixpoint digits_value (s : string) (acc : Z) : Z :=
  match s with
  | EmptyString => acc
  | String c r => digits_value r (acc * 10 + Z.of_nat (nat_of_ascii c - 48))
  end.

Fixpoint all_digits (s : string) : bool :=
  match s with
  | EmptyString => true
  | String c r => is_digit c && all_digits r
  end.

(** ToIntegerOrInfinity of a [slice] argument: numbers, booleans, [null]
    and plain decimal strings; everything else is [NaN], i.e. [0]
    (strings with blanks, signs, exponents or hex are outside the model). *)
Definition to_integer (v : jv) : Z :=
  match v with
  | JNum z => z
  | JBool b => if b then 1 else 0
  | JStr s => if all_digits s then digits_value s 0 else 0
  | _ => 0
  end.

Fixpoint show_Z_aux (fuel : nat) (z : Z) (acc : string) : string :=
  match fuel with
  | O => acc
  | S f =>
      let acc' := String (ascii_of_nat (48 + Z.to_nat (z mod 10))) acc in
      if Z.ltb z 10 then acc' else show_Z_aux f (z / 10) acc'
  end.

(** Decimal rendering of an integer, as in a template literal. *)
Definition show_Z (z : Z) : string :=
  match z with
  | Z0 => "0"
  | Zpos p => show_Z_aux (Pos.size_nat p) z EmptyString
  | Zneg p => "-" +++ show_Z_aux (Pos.size_nat p) (Zpos p) EmptyString
  end.

Definition show_nat (n : nat) : string := show_Z (Z.of_nat n).

(** [`${v}`] *)
Fixpoint js_string (v : jv) : string :=
  match v with
  | JUndef => "undefined"
  | JNull => "null"
  | JBool b => if b then "true" else "false"
  | JNum z => show_Z z
  | JStr s => s
  | JArr l =>
      let fix go (l : list jv) : string :=
        match l with
        | [] => EmptyString
        | x :: r =>
            let sx := match x with JUndef | JNull => EmptyString | _ => js_string x end in
            match r with [] => sx | _ => sx +++ "," +++ go r end
        end in
      go l
  | JObj _ => "[object Object]"
  end.

(** The newline of ["\n"] in a template literal. *)
Definition nl : string := String (ascii_of_nat 10) EmptyString.

(** An error-tagged tool result: a string that starts with the cross mark. *)
Definition cross_mark : string := "❌".

Definition is_error_tagged (v : jv) : bool :=
  match v with JStr s => String.prefix cross_mark s | _ => false end.

(** ** Gemini responses *)

(** A [Part]: [text?] and [functionCall?] (other part kinds carry neither). *)
Record Part : Type := mkPart { p_text : option string; p_functionCall : option FunctionCall }.

Record Content : Type := mkContent { c_parts : option (list Part) }.

Record Candidate : Type := mkCandidate { cand_content : option Content }.

Record Response : Type := mkResponse { candidates : option (list Candidate) }.

(** ** Tool handlers and dispatch (src/src/cli.ts) *)

Section Program.

(** The Blockscout client, seen as an oracle over the trace. *)
Variable api : list Event -> Req -> exn + Resp.

(** The Gemini chat session ([chat.sendMessage]), likewise. *)
Variable send : list Event -> Msg -> exn + Response.

Definition useApi (r : Req) : M Resp :=
  fun h => let h1 := h ++ [EApi r] in (api h1 r, h1).

Definition path_opts (k : string) (v : jv) : jv :=
  JObj [("path", JObj [(k, v)])].

(** The shape every handler shares:
    [try { response = await useApi(..); if (response.status !== 200)
    return `<err>${response.status}`; ..process(response.data).. }
    catch (error) { return `❌ Error: ${..message..}` }]. *)
Definition api_handler (nm : string) (req : Req) (err : string)
    (process : jv -> P jv) : M jv :=
  emit (EHandler nm) ;;;
  try_catch
    (response <- useApi req ;;
     if negb (Nat.eqb (status response) 200)
     then ret (JStr (err +++ show_nat (status response)))
     else run_pure (process (data response)))
    (fun error => ret (JStr ("❌ Error: " +++ exn_message error))).

Definition addressInfo_result (d : jv) : P jv :=
  hash <- prop d "hash" ;;
  cb <- prop d "coin_balance" ;;
  ic <- prop d "is_contract" ;;
  iv <- prop d "is_verified" ;;
  ret (JObj [("address", hash);
             ("balance", jor cb (JStr "0"));
             ("type", if truthy ic then JStr "Contract"
                      else JStr "EOA (Externally Owned Account)");
             ("verified", jor iv (JBool false))]).

Definition getAddressInfo (address : jv) : M jv :=
  api_handler "getAddressInfo"
    (mkReq "/addresses/{address_hash}" "get" (path_opts "address_hash" address))
    "❌ Error fetching address info: " addressInfo_result.

Definition tx_summary (tx : jv) : P jv :=
  hash <- prop tx "hash" ;;
  from <- prop tx "from" ;; fromh <- oprop from "hash" ;;
  to <- prop tx "to" ;; toh <- oprop to "hash" ;;
  value <- prop tx "value" ;;
  gas <- prop tx "gas_used" ;;
  st <- prop tx "status" ;;
  ts <- prop tx "timestamp" ;;
  meth <- prop tx "method" ;;
  ret (JObj [("hash", hash); ("from", fromh); ("to", toh); ("value", value);
             ("gasUsed", gas); ("status", st); ("timestamp", ts); ("method", meth)]).

(** [data.items?.slice(0, n) || []] *)
Definition items_prefix (d : jv) (n : Z) : P jv :=
  items <- prop d "items" ;;
  sl <- (match items with JUndef | JNull => ret JUndef | _ => slice0 items n end) ;;
  ret (jor sl (JArr [])).

(** [limit: number = 10]: the default applies to [undefined] only. *)
Definition getAddressTransactions (address limit : jv) : M jv :=
  let lim := match limit with JUndef => 10%Z | _ => to_integer limit end in
  api_handler "getAddressTransactions"
    (mkReq "/addresses/{address_hash}/transactions" "get" (path_opts "address_hash" address))
    "❌ Error fetching transactions: "
    (fun d => txs <- items_prefix d lim ;; jmap tx_summary txs).

Definition balance_summary (b : jv) : P jv :=
  tok <- prop b "token" ;;
  n <- prop tok "name" ;;
  tok' <- prop b "token" ;; sym <- prop tok' "symbol" ;;
  tok'' <- prop b "token" ;; addr <- prop tok'' "address" ;;
  value <- prop b "value" ;;
  vf <- prop b "value_float" ;;
  ret (JObj [("token", JObj [("name", n); ("symbol", sym); ("address", addr)]);
             ("value", value); ("valueFloat", vf)]).

(** [debug('Raw API data', { balancesCount: data.length })]: the argument
    is evaluated, so [data.length] is read before [data.map]. *)
Definition getAddressTokenBalances (address : jv) : M jv :=
  api_handler "getAddressTokenBalances"
    (mkReq "/addresses/{address_hash}/token-balances" "get" (path_opts "address_hash" address))
    "❌ Error fetching token balances: "
    (fun d => _ <- prop d "length" ;; jmap balance_summary d).

Definition tokenInfo_result (d : jv) : P jv :=
  n <- prop d "name" ;; sym <- prop d "symbol" ;; dec <- prop d "decimals" ;;
  ts <- prop d "total_supply" ;; hold <- prop d "holders" ;; ty <- prop d "type" ;;
  ret (JObj [("name", n); ("symbol", sym); ("decimals", dec); ("totalSupply", ts);
             ("holderCount", hold); ("transferCount", JStr "N/A"); ("type", ty)]).

Definition getTokenInfo (tokenAddress : jv) : M jv :=
  api_handler "getTokenInfo"
    (mkReq "/tokens/{address_hash}" "get" (path_opts "address_hash" tokenAddress))
    "❌ Error fetching token info: " tokenInfo_result.

Definition txInfo_result (d : jv) : P jv :=
  hash <- prop d "hash" ;;
  from <- prop d "from" ;; fromh <- oprop from "hash" ;;
  to <- prop d "to" ;; toh <- oprop to "hash" ;;
  value <- prop d "value" ;; gu <- prop d "gas_used" ;; gl <- prop d "gas_limit" ;;
  gp <- prop d "gas_price" ;; st <- prop d "status" ;; bn <- prop d "block_number" ;;
  ts <- prop d "timestamp" ;; meth <- prop d "method" ;; fee <- prop d "fee" ;;
  ret (JObj [("hash", hash); ("from", fromh); ("to", toh); ("value", value);
             ("gasUsed", gu); ("gasLimit", gl); ("gasPrice", gp); ("status", st);
             ("blockNumber", bn); ("timestamp", ts); ("method", meth); ("fee", fee)]).

Definition getTransactionInfo (txHash : jv) : M jv :=
  api_handler "getTransactionInfo"
    (mkReq "/transactions/{transaction_hash}" "get" (path_opts "transaction_hash" txHash))
    "❌ Error fetching transaction: " txInfo_result.

Definition block_summary (b : jv) : P jv :=
  height <- prop b "height" ;; hash <- prop b "hash" ;; ts <- prop b "timestamp" ;;
  tc <- prop b "transaction_count" ;; miner <- prop b "miner" ;; mh <- oprop miner "hash" ;;
  gu <- prop b "gas_used" ;; gl <- prop b "gas_limit" ;;
  ret (JObj [("number", height); ("hash", hash); ("timestamp", ts);
             ("transactionCount", tc); ("miner", mh); ("gasUsed", gu); ("gasLimit", gl)]).

(** [count: number = 5] *)
Definition getLatestBlocks (count : jv) : M jv :=
  let cnt := match count with JUndef => 5%Z | _ => to_integer count end in
  api_handler "getLatestBlocks" (mkReq "/blocks" "get" (JObj []))
    "❌ Error fetching blocks: "
    (fun d => blocks <- items_prefix d cnt ;; jmap block_summary blocks).

Definition networkStats_result (d : jv) : P jv :=
  tb <- prop d "total_blocks" ;; tt <- prop d "total_transactions" ;;
  ta <- prop d "total_addresses" ;; abt <- prop d "average_block_time" ;;
  nu <- prop d "network_utilization_percentage" ;;
  ret (JObj [("totalBlocks", tb); ("totalTransactions", tt); ("totalAddresses", ta);
             ("averageBlockTime", abt); ("networkUtilization", nu)]).

Definition getNetworkStats : M jv :=
  api_handler "getNetworkStats" (mkReq "/stats" "get" (JObj []))
    "❌ Error fetching network stats: " networkStats_result.

(** One search hit, as the [limitedResults.map(..)] callback builds it. *)
Definition search_item (query item : jv) : P jv :=
  ty <- prop item "type" ;; nm <- prop item "name" ;; pr <- prop item "priority" ;;
  let base := [("type", ty); ("name", jor nm (JStr "Unknown")); ("priority", jor pr (JNum 0))] in
  if is_str ty "address" then
    ah <- prop item "address_hash" ;; addr <- jorM ah (prop item "address") ;;
    sv <- prop item "is_smart_contract_verified" ;;
    u <- prop item "url" ;; url <- jorM u (prop item "address_url") ;;
    cert <- prop item "certified" ;;
    ens <- prop item "ens_info" ;;
    ensf <- (if truthy ens
             then en <- prop ens "name" ;; ec <- prop ens "names_count" ;;
                  ret [("ensName", en); ("ensNamesCount", ec)]
             else ret []) ;;
    ret (JObj (base ++ [("address", addr); ("isContract", jor sv (JBool false));
                        ("url", url); ("certified", jor cert (JBool false))] ++ ensf))
  else if is_str ty "ens_domain" then
    ah <- prop item "address_hash" ;; addr <- jorM ah (prop item "address") ;;
    ei <- prop item "ens_info" ;; en <- oprop ei "name" ;;
    sv <- prop item "is_smart_contract_verified" ;;
    u <- prop item "url" ;; url <- jorM u (prop item "address_url") ;;
    e <- ends_with query ".eth" ;;
    resf <- (if e
             then ah2 <- prop item "address_hash" ;; a2 <- jorM ah2 (prop item "address") ;;
                  ret [("ensResolution", JStr (js_string query +++ " resolves to " +++ js_string a2))]
             else ret []) ;;
    ret (JObj (base ++ [("address", addr); ("ensName", en);
                        ("isContract", jor sv (JBool false)); ("url", url)] ++ resf))
  else if is_str ty "token" then
    ah <- prop item "address_hash" ;; addr <- jorM ah (prop item "address") ;;
    sym <- prop item "symbol" ;; tt <- prop item "token_type" ;; url <- prop item "token_url" ;;
    ts <- prop item "total_supply" ;; sv <- prop item "is_smart_contract_verified" ;;
    adm <- prop item "is_verified_via_admin_panel" ;; cert <- prop item "certified" ;;
    mc <- prop item "circulating_market_cap" ;; ex <- prop item "exchange_rate" ;;
    ic <- prop item "icon_url" ;;
    ret (JObj (base ++ [("address", addr); ("symbol", sym); ("tokenType", tt); ("url", url);
                        ("totalSupply", ts); ("isVerified", jor sv (JBool false));
                        ("isVerifiedAdmin", jor adm (JBool false));
                        ("certified", jor cert (JBool false))]
                    ++ (if truthy mc then [("marketCap", mc)] else [])
                    ++ (if truthy ex then [("price", ex)] else [])
                    ++ (if truthy ic then [("iconUrl", ic)] else [])))
  else if is_str ty "transaction" then
    th <- prop item "transaction_hash" ;; hash <- jorM th (prop item "tx_hash") ;;
    url <- prop item "url" ;; ts <- prop item "timestamp" ;;
    ret (JObj (base ++ [("hash", hash); ("url", url); ("timestamp", ts)]))
  else if is_str ty "block" then
    bn <- prop item "block_number" ;; bh <- prop item "block_hash" ;; url <- prop item "url" ;;
    ts <- prop item "timestamp" ;; bt <- prop item "block_type" ;;
    ret (JObj (base ++ [("blockNumber", bn); ("blockHash", bh); ("url", url);
                        ("timestamp", ts); ("blockType", bt)]))
  else ret (JObj base).

(** The predicate of [limitedResults.find(..)]. *)
Definition ens_candidate (item : jv) : P bool :=
  ty <- prop item "type" ;;
  if is_str ty "ens_domain" || is_str ty "address" then
    ah <- prop item "address_hash" ;; a <- jorM ah (prop item "address") ;; ret (truthy a)
  else ret false.

Definition search_result (query d : jv) : P jv :=
  items <- prop d "items" ;;
  let results := jor items (JArr []) in
  limitedResults <- slice0 results 10 ;;
  processedResults <- jmap (search_item query) limitedResults ;;
  e <- ends_with query ".eth" ;;
  resolvedAddress <-
    (if e then
       ensResult <- jfind ens_candidate limitedResults ;;
       if truthy ensResult
       then ah <- prop ensResult "address_hash" ;; jorM ah (prop ensResult "address")
       else ret JNull
     else ret JNull) ;;
  rl <- prop results "length" ;;
  pl <- prop processedResults "length" ;;
  ret (JObj [("query", query); ("resultsCount", rl); ("displayedResults", pl);
             ("results", processedResults); ("resolvedAddress", resolvedAddress);
             (* [results.length > 10]; [results] is an array here *)
             ("truncated", JBool (match rl with JNum n => Z.ltb 10 n | _ => false end))]).

Definition search_req (query : jv) : Req :=
  mkReq "/search" "get" (JObj [("query", JObj [("q", query)])]).

Definition searchBlockchain (query : jv) : M jv :=
  api_handler "searchBlockchain" (search_req query) "❌ Error searching: " (search_result query).

Definition name_str (name : option string) : string :=
  match name with Some n => n | None => "undefined" end.

Definition unknown_function_msg (name : option string) : string :=
  "❌ Unknown function: " +++ name_str name.

Definition executeFunction (functionCall : FunctionCall) : M jv :=
  emit (EDispatch functionCall) ;;;
  let safeArgs := jor (fc_args functionCall) (JObj []) in
  match fc_name functionCall with
  | Some name =>
      if String.eqb name "getAddressInfo" then
        a <- prop safeArgs "address" ;; getAddressInfo a
      else if String.eqb name "getAddressTransactions" then
        a <- prop safeArgs "address" ;; l <- prop safeArgs "limit" ;; getAddressTransactions a l
      else if String.eqb name "getAddressTokenBalances" then
        a <- prop safeArgs "address" ;; getAddressTokenBalances a
      else if String.eqb name "getTokenInfo" then
        t <- prop safeArgs "tokenAddress" ;; getTokenInfo t
      else if String.eqb name "getTransactionInfo" then
        t <- prop safeArgs "txHash" ;; getTransactionInfo t
      else if String.eqb name "getLatestBlocks" then
        c <- prop safeArgs "count" ;; getLatestBlocks c
      else if String.eqb name "searchBlockchain" then
        q <- prop safeArgs "query" ;; searchBlockchain q
      else if String.eqb name "getNetworkStats" then
        getNetworkStats
      else ret (JStr (unknown_function_msg (Some name)))
  | None => ret (JStr (unknown_function_msg None))
  end.

(** ** The function-calling loop [runChat] *)

Definition sendMessage (m : Msg) : M Response :=
  fun h => let h1 := h ++ [ESend m] in (send h1 m, h1).

Definition has_parts (c : Candidate) : bool :=
  match cand_content c with
  | Some ct => match c_parts ct with Some _ => true | None => false end
  | None => false
  end.

(** [response.candidates?.find((c) => c.content?.parts)] *)
Definition find_candidate (r : Response) : option Candidate :=
  match candidates r with
  | Some cs => find has_parts cs
  | None => None
  end.

(** [candidate.content?.parts || []] *)
Definition cand_parts (c : Candidate) : list Part :=
  match cand_content c with
  | Some ct => match c_parts ct with Some ps => ps | None => [] end
  | None => []
  end.

(** [part.text] when truthy. *)
Definition text_truthy (p : Part) : option string :=
  match p_text p with
  | Some t => if String.eqb t EmptyString then None else Some t
  | None => None
  end.

Definition assistant_line (t : string) : string := "🤖 Assistant:" +++ nl +++ t.

(** The [for (const part of ..)] loop of one round. *)
Fixpoint collect_parts (ps : list Part) (text : string)
    (callResults : list (FunctionCall * jv)) : M (string * list (FunctionCall * jv)) :=
  match ps with
  | [] => ret (text, callResults)
  | part :: ps' =>
      match text_truthy part with
      | Some t => emit (ELog (assistant_line t)) ;;; collect_parts ps' (text +++ t) callResults
      | None =>
          match p_functionCall part with
          | Some fc => result <- executeFunction fc ;;
                       collect_parts ps' text (callResults ++ [(fc, result)])
          | None => collect_parts ps' text callResults
          end
      end
  end.

Definition to_fn_response (cr : FunctionCall * jv) : FnResponse :=
  mkFnResp (fc_name (fst cr)) (fc_id (fst cr)) (snd cr).

Definition max_rounds : nat := 5.

Definition no_response_msg : string := "No response from AI".

(** The code after the loop: reached by exhaustion and by [break]. *)
Definition after_loop : M (option string) :=
  emit (ELog no_response_msg) ;;; ret None.

(** [while (rounds < 5) { rounds++; .. }], with [fuel = 5 - rounds]. *)
Fixpoint rounds_loop (fuel : nat) (response : Response) : M (option string) :=
  match fuel with
  | O => after_loop
  | S fuel' =>
      match find_candidate response with
      | None => after_loop
      | Some candidate =>
          r <- collect_parts (cand_parts candidate) EmptyString [] ;;
          match r with
          | (text, callResults) =>
              match callResults with
              | _ :: _ =>
                  response' <- sendMessage (MParts (map to_fn_response callResults)) ;;
                  rounds_loop fuel' response'
              | [] => if String.eqb text EmptyString then ret None else ret (Some text)
              end
          end
      end
  end.

Definition runChat (input : string) : M (option string) :=
  response <- sendMessage (MText input) ;;
  rounds_loop max_rounds response.

(** ** The interactive loop of [startChat] *)

Definition to_lower_ascii (c : ascii) : ascii :=
  let n := nat_of_ascii c in
  if Nat.leb 65 n && Nat.leb n 90 then ascii_of_nat (n + 32) else c.

(** [toLowerCase] on the bytes of the line: ASCII letters are mapped;
    no other character lowercases to one of the letters of [exit]. *)
Fixpoint toLowerCase (s : string) : string :=
  match s with
  | EmptyString => EmptyString
  | String c r => String (to_lower_ascii c) (toLowerCase r)
  end.

Definition thinking_msg : string := "🤖 Assistant: Thinking...".

Definition error_line (error : exn) : string := "❌ Error: " +++ exn_message error +++ nl.

(** The [while (true)] loop of [startChat], run on the lines the user
    enters; the model stops when the list of lines does. *)
Fixpoint startChat (inputs : list string) : M unit :=
  match inputs with
  | [] => ret tt
  | userInput :: rest =>
      if String.eqb (toLowerCase userInput) "exit" then emit (ELog "👋 Goodbye!")
      else
        try_catch (emit (ELog thinking_msg) ;;; runChat userInput ;;; ret tt)
                  (fun error => emit (EErr (error_line error))) ;;;
        startChat rest
  end.

End Program.

(** ** The earlier variant (src/unnamed/part_001)

    It keeps its own history array [chatHistory] and calls the stateless
    [generateContent]; its handlers are those of the CLI without the
    debug calls, except [getAddressTokenBalances], whose debug call reads
    [data.length], and [searchBlockchain]. *)

Module V001.

(** The response getters [response.functionCalls] and [response.text]. *)
Record GenResponse : Type := mkGen { functionCalls : list FunctionCall; text : option string }.

Section Variant.

Variable api : list Event -> Req -> exn + Resp.

(** [ai.models.generateContent({contents: chatHistory, ..})]. *)
Variable gen : list Event -> list Entry -> exn + GenResponse.

(** Without the debug call: [data.map] directly. *)
Definition getAddressTokenBalances (address : jv) : M jv :=
  api_handler api "getAddressTokenBalances"
    (mkReq "/addresses/{address_hash}/token-balances" "get" (path_opts "address_hash" address))
    "❌ Error fetching token balances: " (jmap balance_summary).

Definition search_result (query d : jv) : P jv :=
  items <- prop d "items" ;;
  ret (JObj [("query", query); ("results", jor items (JArr []))]).

Definition searchBlockchain (query : jv) : M jv :=
  api_handler api "searchBlockchain" (search_req query) "❌ Error searching: "
    (search_result query).

(** No [|| {}] guard: [args.x] is read on the raw [args]. *)
Definition executeFunction (functionCall : FunctionCall) : M jv :=
  emit (EDispatch functionCall) ;;;
  let args := fc_args functionCall in
  match fc_name functionCall with
  | Some name =>
      if String.eqb name "getAddressInfo" then
        a <- prop args "address" ;; getAddressInfo api a
      else if String.eqb name "getAddressTransactions" then
        a <- prop args "address" ;; l <- prop args "limit" ;; getAddressTransactions api a l
      else if String.eqb name "getAddressTokenBalances" then
        a <- prop args "address" ;; getAddressTokenBalances a
      else if String.eqb name "getTokenInfo" then
        t <- prop args "tokenAddress" ;; getTokenInfo api t
      else if String.eqb name "getTransactionInfo" then
        t <- prop args "txHash" ;; getTransactionInfo api t
      else if String.eqb name "getLatestBlocks" then
        c <- prop args "count" ;; getLatestBlocks api c
      else if String.eqb name "searchBlockchain" then
        q <- prop args "query" ;; searchBlockchain q
      else if String.eqb name "getNetworkStats" then
        getNetworkStats api
      else ret (JStr (unknown_function_msg (Some name)))
  | None => ret (JStr (unknown_function_msg None))
  end.

(** State: the shared [chatHistory] array and the trace. *)
Definition MV := ST (list Entry * list Event).

Definition liftM {A} (m : M A) : MV A :=
  fun st => let (r, tr') := m (snd st) in (r, (fst st, tr')).

Definition push (e : Entry) : MV unit :=
  fun st => (inr tt, (fst st ++ [e], snd st)).

Definition log (s : string) : MV unit := liftM (emit (ELog s)).

Definition generateContent : MV GenResponse :=
  fun st => let tr1 := snd st ++ [EGen (fst st)] in (gen tr1 (fst st), (fst st, tr1)).

(** [if (chatHistory.length > 40) chatHistory.splice(0, chatHistory.length - 40)] *)
Definition trim (hs : list Entry) : list Entry :=
  if Nat.ltb 40 (length hs) then skipn (length hs - 40) hs else hs.

Definition trim_history : MV unit :=
  fun st => (inr tt, (trim (fst st), snd st)).

(** The [for (const functionCall of response.functionCalls)] loop; the
    result kept is the value [JSON.stringify] serialises. *)
Fixpoint run_calls (fcs : list FunctionCall) : MV (list (option string * jv)) :=
  match fcs with
  | [] => ret []
  | fc :: r =>
      log ("🔧 Executing: " +++ name_str (fc_name fc) +++ "...") ;;;
      result <- liftM (executeFunction fc) ;;
      rest <- run_calls r ;;
      ret ((fc_name fc, result) :: rest)
  end.

(** [x.text || 'No response generated'] *)
Definition or_no_response (t : option string) : string :=
  match t with
  | Some s => if String.eqb s EmptyString then "No response generated" else s
  | None => "No response generated"
  end.

(** The body of the [try] block for one user line. *)
Definition turn (userInput : string) : MV unit :=
  log thinking_msg ;;;
  push (mkEntry "user" [HText userInput]) ;;;
  response <- generateContent ;;
  assistantMessage <-
    (match functionCalls response with
     | [] => ret (or_no_response (text response))
     | fcs =>
         functionResults <- run_calls fcs ;;
         push (mkEntry "model" (map HCall fcs)) ;;;
         push (mkEntry "user" (map (fun fr => HResp (fst fr) (snd fr)) functionResults)) ;;;
         finalResponse <- generateContent ;;
         ret (or_no_response (text finalResponse))
     end) ;;
  log ("🤖 Assistant: " +++ assistantMessage +++ nl) ;;;
  push (mkEntry "model" [HText assistantMessage]) ;;;
  trim_history.

Fixpoint startChat (inputs : list string) : MV unit :=
  match inputs with
  | [] => ret tt
  | userInput :: rest =>
      if String.eqb (toLowerCase userInput) "exit" then log "👋 Goodbye!"
      else
        try_catch (turn userInput)
                  (fun error => liftM (emit (EErr (error_line error)))) ;;;
        startChat rest
  end.

End Variant.

End V001.

(** ** Observations on runs *)

(** The call counter: the calls [executeFunction] was entered with. *)
Definition dispatches_of (tr : list Event) : list FunctionCall :=
  flat_map (fun e => match e with EDispatch fc => [fc] | _ => [] end) tr.

(** The messages given to [chat.sendMessage]. *)
Definition sends_of (tr : list Event) : list Msg :=
  flat_map (fun e => match e with ESend m => [m] | _ => [] end) tr.

(** The function-response messages: one per model-tool round-trip. *)
Definition tool_rounds (tr : list Event) : nat :=
  length (filter (fun m => match m with MParts _ => true | MText _ => false end) (sends_of tr)).

(** The tool-call requests of a round, in part order. *)
Definition fc_requests (ps : list Part) : list FunctionCall :=
  flat_map (fun p => match text_truthy p with
                     | Some _ => []
                     | None => match p_functionCall p with Some fc => [fc] | None => [] end
                     end) ps.

(** The text segments of a round, in part order. *)
Definition text_segments (ps : list Part) : list string :=
  flat_map (fun p => match text_truthy p with Some t => [t] | None => [] end) ps.

Definition concat_str (l : list string) : string := fold_right String.append EmptyString l.

Definition requests_tool (r : Response) : bool :=
  match find_candidate r with
  | Some c => match fc_requests (cand_parts c) with [] => false | _ => true end
  | None => false
  end.

(** How a user turn ends, as the user sees it. *)
Inductive Outcome : Type :=
| Answered (t : string)     (* runChat returns the text *)
| NoResponseNotice          (* undefined, after printing the notice *)
| NoAnswer                  (* undefined, silently *)
| Failed (e : exn).         (* the promise rejects *)

Definition outcome_of (r : exn + option string) (tr : list Event) : Outcome :=
  match r with
  | inl e => Failed e
  | inr (Some t) => Answered t
  | inr None =>
      match rev tr with
      | ELog s :: _ => if String.eqb s no_response_msg then NoResponseNotice else NoAnswer
      | _ => NoAnswer
      end
  end.

(** [functionDeclarations]: each tool's name and its [required] list. *)
Definition functionDeclarations : list (string * list string) :=
  [("getAddressInfo", ["address"]);
   ("getAddressTransactions", ["address"]);
   ("getAddressTokenBalances", ["address"]);
   ("getTokenInfo", ["tokenAddress"]);
   ("getTransactionInfo", ["txHash"]);
   ("getLatestBlocks", []);
   ("searchBlockchain", ["query"]);
   ("getNetworkStats", [])].

Definition required_params (name : string) : list string :=
  match find (fun d => String.eqb (fst d) name) functionDeclarations with
  | Some d => snd d
  | None => []
  end.

Definition known_tool (name : string) : bool :=
  existsb (fun d => String.eqb (fst d) name) functionDeclarations.

(** The request a handler issued fails: it throws or is not a 200. *)
Definition api_fails (api : list Event -> Req -> exn + Resp) (h : list Event) (r : Req) : bool :=
  match api h r with
  | inl _ => true
  | inr resp => negb (Nat.eqb (status resp) 200)
  end.

(** The raw [items] of a search response, and their number. *)
Definition upstream_items (d : jv) : list jv :=
  match field d "items" with JArr l => l | _ => [] end.

Definition upstream_count (d : jv) : nat := length (upstream_items d).

(** The resolved address as the claim describes it: the address of the
    first item of type ens_domain or address that carries one. *)
Definition item_address (it : jv) : jv := jor (field it "address_hash") (field it "address").

Definition carries_ens_address (it : jv) : bool :=
  (is_str (field it "type") "ens_domain" || is_str (field it "type") "address")
  && truthy (item_address it).

Definition resolved_spec (items : list jv) : jv :=
  match find carries_ens_address items with
  | Some it => item_address it
  | None => JNull
  end.

(** History entries of the earlier variant, by kind. *)
Definition is_call_entry (e : Entry) : bool :=
  existsb (fun p => match p with HCall _ => true | _ => false end) (parts e).

Definition is_resp_entry (e : Entry) : bool :=
  existsb (fun p => match p with HResp _ _ => true | _ => false end) (parts e).

(** A model tool-call turn immediately followed by its tool-result turn. *)
Fixpoint has_pair (hs : list Entry) : bool :=
  match hs with
  | a :: ((b :: _) as r) => (is_call_entry a && is_resp_entry b) || has_pair r
  | _ => false
  end.

(** ** Concrete scripts *)

Definition stats_call : FunctionCall := mkCall (Some "c1") (Some "getNetworkStats") JUndef.

Definition api_ok : list Event -> Req -> exn + Resp := fun _ _ => inr (mkResp 200 (JObj [])).

(** A model that always answers with one tool call. *)
Definition send_always_tool : list Event -> Msg -> exn + Response :=
  fun _ _ => inr (mkResponse (Some [mkCandidate (Some (mkContent (Some [mkPart None (Some stats_call)])))])).

(** A model whose response has no candidate. *)
Definition send_no_candidate : list Event -> Msg -> exn + Response :=
  fun _ _ => inr (mkResponse None).

(** A model answering with text only. *)
Definition send_text (t : string) : list Event -> Msg -> exn + Response :=
  fun _ _ => inr (mkResponse (Some [mkCandidate (Some (mkContent (Some [mkPart (Some t) None])))])).

(** The earlier variant's model: a tool call when the user line is [tool]. *)
Definition gen_script : list Event -> list Entry -> exn + V001.GenResponse :=
  fun _ hs =>
    match rev hs with
    | mkEntry "user" [HText "tool"] :: _ => inr (V001.mkGen [stats_call] None)
    | _ => inr (V001.mkGen [] (Some "ok"))
    end.

(** Twenty plain turns, one tool turn, nineteen plain turns. *)
Definition trim_script : list string := repeat "hi" 20 ++ ["tool"] ++ repeat "hi" 19.

Example runChat_exhaust_ex :
  fst (runChat api_ok send_always_tool "q" []) = inr None.
Proof. vm_compute. reflexivity. Qed.

Example runChat_text_ex :
  runChat api_ok (send_text "hello") "q" [] =
  (inr (Some "hello"), [ESend (MText "q"); ELog (assistant_line "hello")]).
Proof. vm_compute. reflexivity. Qed.

Example toLowerCase_ex : toLowerCase "ExIT" = "exit".
Proof. reflexivity. Qed.

(** A search response of twelve hits: a token, an ENS name with its
    address, then ten blocks. *)
Definition search_hits : list jv :=
  [JObj [("type", JStr "token"); ("name", JStr "Tok")];
   JObj [("type", JStr "ens_domain"); ("address_hash", JStr "0xd8da")]]
  ++ repeat (JObj [("type", JStr "block"); ("block_number", JNum 1)]) 10.

Definition api_search : list Event -> Req -> exn + Resp :=
  fun _ _ => inr (mkResp 200 (JObj [("items", JArr search_hits)])).

(** Trace growth: a computation only appends events allowed by [ok],
    whatever its result. *)
Definition grows {A} (ok : Event -> bool) (m : M A) : Prop :=
  forall h, exists d, snd (m h) = h ++ d /\ forallb ok d = true.

Definition growsV {A} (ok : Event -> bool) (m : ST (list Entry * list Event) A) : Prop :=
  forall st, exists d, snd (snd (m st)) = snd st ++ d /\ forallb ok d = true.

Definition any_event (e : Event) : bool := true.

Definition no_dispatch (e : Event) : bool :=
  match e with EDispatch _ => false | _ => true end.


(** The histories given to [generateContent]. *)
Definition gens_of (tr : list Event) : list (list Entry) :=
  flat_map (fun e => match e with EGen hs => [hs] | _ => [] end) tr.

(** The events of a tool handler: its entry and its request. *)
Definition handler_event (e : Event) : bool :=
  match e with EHandler _ | EApi _ => true | _ => false end.

(** [slice(0, k)] on [len] elements keeps this many, as ECMAScript
    defines it: [k] clamped to [len], a negative [k] counting from the end. *)
Definition slice_count (len : nat) (k : Z) : nat :=
  if Z.leb 0 k then Nat.min (Z.to_nat k) len else len - Z.to_nat (- k).

(** Data processing that does not throw. *)
Definition succeeds {A} (m : P A) : Prop := exists y, fst (m tt) = inr y.

(** The requests of the two list tools. *)
Definition tx_req (address : jv) : Req :=
  mkReq "/addresses/{address_hash}/transactions" "get" (path_opts "address_hash" address).

Definition blocks_req : Req := mkReq "/blocks" "get" (JObj []).

(** A Blockscout answering every request with three items. *)
Definition api_three : list Event -> Req -> exn + Resp :=
  fun _ _ => inr (mkResp 200 (JObj [("items", JArr [JObj [("hash", JStr "0x1")];
                                                     JObj [("hash", JStr "0x2")];
                                                     JObj [("hash", JStr "0x3")]])])).


(** The value a request carries for its tool's argument: the single
    path parameter, or the search query. *)
Definition req_arg (r : Req) : jv :=
  match r_options r with
  | JObj [(_, JObj [(_, v)])] => v
  | _ => JUndef
  end.

(** The dispatcher as the amended claim describes it: the handler a tool
    name stands for, called with the named arguments read from [args]. *)
Definition tool_handler (api : list Event -> Req -> exn + Resp) (name : string) (args : jv) : M jv :=
  if String.eqb name "getAddressInfo" then getAddressInfo api (field args "address")
  else if String.eqb name "getAddressTransactions" then
    getAddressTransactions api (field args "address") (field args "limit")
  else if String.eqb name "getAddressTokenBalances" then getAddressTokenBalances api (field args "address")
  else if String.eqb name "getTokenInfo" then getTokenInfo api (field args "tokenAddress")
  else if String.eqb name "getTransactionInfo" then getTransactionInfo api (field args "txHash")
  else if String.eqb name "getLatestBlocks" then getLatestBlocks api (field args "count")
  else if String.eqb name "searchBlockchain" then searchBlockchain api (field args "query")
  else if String.eqb name "getNetworkStats" then getNetworkStats api
  else ret (JStr (unknown_function_msg (Some name))).


(** A model call that fails, in either variant. *)
Definition send_fail : list Event -> Msg -> exn + Response :=
  fun _ _ => inl (type_error "quota").

Definition gen_fail : list Event -> list Entry -> exn + V001.GenResponse :=
  fun _ _ => inl (type_error "quota").

(** * Proofs *)

(** ** Handlers and dispatch *)

Section Dispatch.

Variable api : list Event -> Req -> exn + Resp.

Lemma api_handler_run nm req err process h :
  api_handler api nm req err process h =
  (inr (match api (h ++ [EHandler nm; EApi req]) req with
        | inl e => JStr ("❌ Error: " +++ exn_message e)
        | inr resp =>
            if negb (Nat.eqb (status resp) 200)
            then JStr (err +++ show_nat (status resp))
            else match fst (process (data resp) tt) with
                 | inl e => JStr ("❌ Error: " +++ exn_message e)
                 | inr v => v
                 end
        end), h ++ [EHandler nm; EApi req]).
Proof.
  unfold api_handler, emit, bind, try_catch, useApi, run_pure; cbn.
  rewrite <- app_assoc; cbn.
  destruct (api _ req) as [e|resp]; [reflexivity|].
  destruct (negb (Nat.eqb (status resp) 200)); [reflexivity|].
  destruct (fst (process (data resp) tt)); reflexivity.
Qed.

Lemma prefix_append (p s t : string) :
  String.prefix p s = true -> String.prefix p (s +++ t) = true.
Proof.
  revert s; induction p as [|c p IH]; intros s H; [destruct (s +++ t); reflexivity|].
  destruct s as [|c' s]; [discriminate|].
  simpl in *. destruct (ascii_dec c c'); [apply IH; exact H | discriminate].
Qed.

Lemma api_handler_fails_tagged nm req err process h v h' :
  String.prefix cross_mark err = true ->
  api_handler api nm req err process h = (inr v, h') ->
  api_fails api h' req = true ->
  is_error_tagged v = true.
Proof.
  intros Herr Hrun Hf. rewrite api_handler_run in Hrun.
  injection Hrun as <- <-. unfold api_fails in Hf.
  destruct (api _ req) as [e|resp]; [reflexivity|].
  destruct (negb (Nat.eqb (status resp) 200)); [|discriminate].
  unfold is_error_tagged. apply prefix_append; exact Herr.
Qed.

Lemma prop_jor {S} (a : jv) (k : string) :
  @prop S (jor a (JObj [])) k = ret (field (jor a (JObj [])) k).
Proof.
  unfold jor; destruct a; simpl; try reflexivity;
  repeat match goal with |- context [if ?b then _ else _] => destruct b end;
  reflexivity.
Qed.

Lemma known_tool_cases n :
  known_tool n = true ->
  n = "getAddressInfo" \/ n = "getAddressTransactions" \/ n = "getAddressTokenBalances" \/
  n = "getTokenInfo" \/ n = "getTransactionInfo" \/ n = "getLatestBlocks" \/
  n = "searchBlockchain" \/ n = "getNetworkStats".
Proof.
  unfold known_tool, functionDeclarations; cbn [existsb fst]; intro H.
  repeat (apply orb_true_iff in H; destruct H as [H|H];
          [apply String.eqb_eq in H; subst; tauto|]).
  discriminate.
Qed.

Lemma bind_emit {A} ev (k : M A) h : (emit ev ;;; k) h = k (h ++ [ev]).
Proof. reflexivity. Qed.

Lemma bind_ret {S A B} (a : A) (k : A -> ST S B) s : bind (ret a) k s = k a s.
Proof. reflexivity. Qed.

Lemma handler_shape nm req err process h :
  String.prefix cross_mark err = true ->
  exists v, api_handler api nm req err process h = (inr v, h ++ [EHandler nm; EApi req]) /\
    (api_fails api (h ++ [EHandler nm; EApi req]) req = true -> is_error_tagged v = true).
Proof.
  intros Herr. rewrite api_handler_run. eexists; split; [reflexivity|].
  intro Hf. eapply api_handler_fails_tagged; [exact Herr | apply api_handler_run | exact Hf].
Qed.

Ltac handler_branch :=
  unfold executeFunction; cbn [fc_name fc_args String.eqb Ascii.eqb Bool.eqb andb];
  rewrite bind_emit;
  repeat (rewrite prop_jor, bind_ret);
  unfold getAddressInfo, getAddressTransactions, getAddressTokenBalances, getTokenInfo,
    getTransactionInfo, getLatestBlocks, searchBlockchain, getNetworkStats;
  lazymatch goal with
  | |- context [api_handler ?a ?nm ?req ?err ?pr ?h] =>
      let v := fresh "v" in let Hr := fresh "Hr" in let Hf := fresh "Hf" in
      destruct (handler_shape nm req err pr h eq_refl) as (v & Hr & Hf);
      rewrite Hr; exists req, v; rewrite <- app_assoc in Hf |- *; split; [reflexivity | exact Hf]
  end.

(** [executeFunction] (cli.ts): an unknown name yields the tagged string
    and touches no handler; a known one enters its handler once, issues
    one request, and a failed request yields an error-tagged string. *)
Lemma executeFunction_shape fc h :
  (match fc_name fc with Some n => known_tool n | None => false end = false ->
   executeFunction api fc h = (inr (JStr (unknown_function_msg (fc_name fc))), h ++ [EDispatch fc]))
  /\
  (forall n, fc_name fc = Some n -> known_tool n = true ->
   exists r v, executeFunction api fc h = (inr v, h ++ [EDispatch fc; EHandler n; EApi r]) /\
     (api_fails api (h ++ [EDispatch fc; EHandler n; EApi r]) r = true -> is_error_tagged v = true)).
Proof.
  destruct fc as [id [n|] args]; split.
  - intro Hk. unfold executeFunction; cbn [fc_name fc_args]; rewrite bind_emit.
    repeat match goal with
           | |- context [String.eqb n ?s] =>
               let E := fresh "E" in
               destruct (String.eqb n s) eqn:E;
               [apply String.eqb_eq in E; subst n; vm_compute in Hk; discriminate|]
           end.
    reflexivity.
  - intros n' Hn Hk; injection Hn as <-.
    destruct (known_tool_cases n Hk) as [E|[E|[E|[E|[E|[E|[E|E]]]]]]]; subst n;
    handler_branch.
  - intros _. reflexivity.
  - intros n' Hn; discriminate.
Qed.

End Dispatch.

(** ** One round of [runChat] *)

Lemma str_app_assoc (a b c : string) : (a +++ b) +++ c = a +++ (b +++ c).
Proof. induction a as [|x a IH]; simpl; [reflexivity | now rewrite IH]. Qed.

Lemma str_app_nil_r (a : string) : a +++ EmptyString = a.
Proof. induction a as [|x a IH]; simpl; [reflexivity | now rewrite IH]. Qed.

Lemma dispatches_of_app a b : dispatches_of (a ++ b) = dispatches_of a ++ dispatches_of b.
Proof. apply flat_map_app. Qed.

Lemma sends_of_app a b : sends_of (a ++ b) = sends_of a ++ sends_of b.
Proof. apply flat_map_app. Qed.

Lemma tool_rounds_app a b : tool_rounds (a ++ b) = tool_rounds a + tool_rounds b.
Proof. unfold tool_rounds. now rewrite sends_of_app, filter_app, length_app. Qed.

Section Round.

Variable api : list Event -> Req -> exn + Resp.
Variable send : list Event -> Msg -> exn + Response.

(** [executeFunction] never rejects, and records exactly its own entry. *)
Lemma executeFunction_ok fc h :
  exists v d, executeFunction api fc h = (inr v, h ++ EDispatch fc :: d) /\
    dispatches_of d = [] /\ sends_of d = [].
Proof.
  destruct (executeFunction_shape api fc h) as [Hu Hk].
  destruct (match fc_name fc with Some n => known_tool n | None => false end) eqn:E.
  - destruct (fc_name fc) as [n|] eqn:En; [|discriminate].
    destruct (Hk n eq_refl E) as (r & v & Hrun & _).
    exists v, [EHandler n; EApi r]. split; [exact Hrun | split; reflexivity].
  - exists (JStr (unknown_function_msg (fc_name fc))), [].
    split; [exact (Hu eq_refl) | split; reflexivity].
Qed.

(** The part loop dispatches the tool-call requests in part order, and
    pairs each with its result in that order; text segments are printed
    and accumulated. *)
Lemma collect_parts_ok ps text acc h :
  exists crs d,
    collect_parts api ps text acc h =
      (inr (text +++ concat_str (text_segments ps), acc ++ crs), h ++ d) /\
    map fst crs = fc_requests ps /\
    dispatches_of d = fc_requests ps /\
    sends_of d = [].
Proof.
  revert text acc h; induction ps as [|p ps IH]; intros text acc h.
  - exists [], []. simpl. rewrite str_app_nil_r, !app_nil_r. repeat split.
  - cbn [collect_parts].
    destruct (text_truthy p) as [t|] eqn:Et.
    + rewrite bind_emit.
      destruct (IH (text +++ t) acc (h ++ [ELog (assistant_line t)])) as (crs & d & Hrun & H1 & H2 & H3).
      exists crs, (ELog (assistant_line t) :: d). rewrite Hrun.
      unfold text_segments, fc_requests; cbn [flat_map]; rewrite Et.
      fold (text_segments ps) (fc_requests ps). simpl.
      rewrite str_app_assoc, <- app_assoc. repeat split; assumption.
    + destruct (p_functionCall p) as [fc|] eqn:Ef.
      * destruct (executeFunction_ok fc h) as (v & d1 & Hx & Hd1 & Hs1).
        unfold bind at 1. rewrite Hx.
        destruct (IH text (acc ++ [(fc, v)]) (h ++ EDispatch fc :: d1))
          as (crs & d & Hrun & H1 & H2 & H3).
        exists ((fc, v) :: crs), (EDispatch fc :: d1 ++ d). rewrite Hrun.
        unfold text_segments, fc_requests; cbn [flat_map]; rewrite Et, Ef.
        fold (text_segments ps) (fc_requests ps). simpl.
        rewrite <- !app_assoc. simpl. rewrite dispatches_of_app, sends_of_app, Hd1, Hs1.
        repeat split; simpl; congruence.
      * destruct (IH text acc h) as (crs & d & Hrun & H1 & H2 & H3).
        exists crs, d. rewrite Hrun.
        unfold text_segments, fc_requests; cbn [flat_map]; rewrite Et, Ef.
        fold (text_segments ps) (fc_requests ps). simpl. repeat split; assumption.
Qed.

(** Parts with neither a text segment nor a request leave no trace. *)
Lemma collect_parts_text_only ps text acc h :
  fc_requests ps = [] ->
  collect_parts api ps text acc h =
    (inr (text +++ concat_str (text_segments ps), acc),
     h ++ map (fun t => ELog (assistant_line t)) (text_segments ps)).
Proof.
  revert text h; induction ps as [|p ps IH]; intros text h Hr.
  - simpl. now rewrite str_app_nil_r, app_nil_r.
  - unfold fc_requests in Hr; cbn [flat_map] in Hr.
    cbn [collect_parts]. unfold text_segments; cbn [flat_map].
    destruct (text_truthy p) as [t|] eqn:Et.
    + rewrite bind_emit, IH by exact Hr. fold (text_segments ps). simpl.
      now rewrite str_app_assoc, <- app_assoc.
    + destruct (p_functionCall p) as [fc|]; [discriminate|].
      rewrite IH by exact Hr. reflexivity.
Qed.

Lemma text_segments_nonempty ps :
  text_segments ps <> [] -> String.eqb (concat_str (text_segments ps)) EmptyString = false.
Proof.
  induction ps as [|p ps IH]; intro H; [contradiction|].
  unfold text_segments in *; cbn [flat_map] in *.
  destruct (text_truthy p) as [t|] eqn:Et; [|now apply IH].
  unfold text_truthy in Et. destruct (p_text p) as [t'|]; [|discriminate].
  destruct (String.eqb t' EmptyString) eqn:E0; [discriminate|]. injection Et as <-.
  destruct t'; [discriminate | reflexivity].
Qed.

(** A round whose response requests tools: the results go back to the
    model in one message, in request order, and the loop goes on. *)
Lemma rounds_loop_tool_step n response c h :
  find_candidate response = Some c ->
  fc_requests (cand_parts c) <> [] ->
  exists crs d,
    map fst crs = fc_requests (cand_parts c) /\
    dispatches_of d = fc_requests (cand_parts c) /\ sends_of d = [] /\
    rounds_loop api send (S n) response h =
      (response' <- sendMessage send (MParts (map to_fn_response crs)) ;;
       rounds_loop api send n response') (h ++ d).
Proof.
  intros Hc Hne. cbn [rounds_loop]. rewrite Hc.
  destruct (collect_parts_ok (cand_parts c) EmptyString [] h) as (crs & d & Hrun & H1 & H2 & H3).
  exists crs, d. repeat split; try assumption.
  unfold bind at 1. rewrite Hrun. simpl.
  destruct crs as [|cr crs]; [simpl in H1; congruence|]. reflexivity.
Qed.

End Round.

(** ** Termination of the loop *)

Lemma outcome_notice h0 :
  outcome_of (inr None) (h0 ++ [ELog no_response_msg]) = NoResponseNotice.
Proof. unfold outcome_of. now rewrite rev_unit. Qed.

Lemma rounds_loop_exhaust api send n response h :
  (forall tr m, exists r, send tr m = inr r /\ requests_tool r = true) ->
  requests_tool response = true ->
  exists h0, rounds_loop api send n response h = (inr None, h0 ++ [ELog no_response_msg]) /\
    tool_rounds (h0 ++ [ELog no_response_msg]) = tool_rounds h + n.
Proof.
  intros Hs. revert response h; induction n as [|n IH]; intros response h Hreq.
  - exists h. split; [reflexivity|]. rewrite tool_rounds_app.
    change (tool_rounds [ELog no_response_msg]) with 0. lia.
  - unfold requests_tool in Hreq.
    destruct (find_candidate response) as [c|] eqn:Hc; [|discriminate].
    assert (Hne : fc_requests (cand_parts c) <> [])
      by (destruct (fc_requests (cand_parts c)); [discriminate | congruence]).
    destruct (rounds_loop_tool_step api send n response c h Hc Hne)
      as (crs & d & _ & _ & Hsd & ->).
    unfold bind, sendMessage.
    destruct (Hs ((h ++ d) ++ [ESend (MParts (map to_fn_response crs))])
                 (MParts (map to_fn_response crs))) as (r & Hr & Hrq).
    rewrite Hr.
    destruct (IH r ((h ++ d) ++ [ESend (MParts (map to_fn_response crs))]) Hrq)
      as (h0 & Hrun & Hcnt).
    exists h0. split; [exact Hrun|]. rewrite Hcnt, !tool_rounds_app.
    assert (Hd : tool_rounds d = 0) by (unfold tool_rounds; now rewrite Hsd).
    assert (H1 : tool_rounds [ESend (MParts (map to_fn_response crs))] = 1) by reflexivity.
    lia.
Qed.

(** ** Claim theorems: the function-calling loop *)

(** C1: with a scripted model that requests a tool call in every
    response, [runChat] performs exactly [max_rounds] (5) model-tool
    round-trips, then prints "No response from AI" and returns
    [undefined]: the budget-exhausted outcome, not an answer. *)
Theorem runChat_always_tool_exhausts_budget api send input h :
  (forall tr m, exists r, send tr m = inr r /\ requests_tool r = true) ->
  exists h', runChat api send input h = (inr None, h') /\
    tool_rounds h' = tool_rounds h + max_rounds /\
    outcome_of (inr None) h' = NoResponseNotice.
Proof.
  intros Hs. unfold runChat, bind, sendMessage.
  destruct (Hs (h ++ [ESend (MText input)]) (MText input)) as (r & Hr & Hrq).
  rewrite Hr.
  destruct (rounds_loop_exhaust api send max_rounds r (h ++ [ESend (MText input)]) Hs Hrq)
    as (h0 & Hrun & Hcnt).
  exists (h0 ++ [ELog no_response_msg]). split; [exact Hrun|]. split.
  - rewrite Hcnt, tool_rounds_app.
    change (tool_rounds [ESend (MText input)]) with 0. lia.
  - apply outcome_notice.
Qed.

(** C6: if the first response's parts hold text segments and no
    tool-call request, [runChat] returns their concatenation at once:
    one model call, no dispatch. *)
Theorem runChat_text_first_round api send input h response c :
  send (h ++ [ESend (MText input)]) (MText input) = inr response ->
  find_candidate response = Some c ->
  fc_requests (cand_parts c) = [] ->
  text_segments (cand_parts c) <> [] ->
  runChat api send input h =
    (inr (Some (concat_str (text_segments (cand_parts c)))),
     h ++ ESend (MText input) :: map (fun t => ELog (assistant_line t)) (text_segments (cand_parts c)))
  /\ dispatches_of (snd (runChat api send input h)) = dispatches_of h.
Proof.
  intros Hs Hc Hr Ht.
  assert (Hrun : runChat api send input h =
    (inr (Some (concat_str (text_segments (cand_parts c)))),
     h ++ ESend (MText input) :: map (fun t => ELog (assistant_line t)) (text_segments (cand_parts c)))).
  { unfold runChat, bind at 1, sendMessage. rewrite Hs.
    unfold max_rounds; cbn [rounds_loop]. rewrite Hc.
    unfold bind. rewrite (collect_parts_text_only api (cand_parts c) EmptyString [] _ Hr).
    simpl. rewrite (text_segments_nonempty _ Ht). now rewrite <- app_assoc. }
  split; [exact Hrun|]. rewrite Hrun. simpl.
  rewrite dispatches_of_app. simpl.
  generalize (text_segments (cand_parts c)) as ts. clear.
  induction ts as [|t ts IH]; simpl; [now rewrite app_nil_r | exact IH].
Qed.

(** C9 (amended): a round whose response has no candidate with parts
    leaves the loop by the exit that budget exhaustion takes (the notice
    and [undefined]); a round whose parts hold neither text nor a request
    returns [undefined] at once, printing nothing. Neither dispatches. *)
Theorem rounds_loop_empty_round api send n response h :
  (find_candidate response = None ->
   rounds_loop api send (S n) response h = (inr None, h ++ [ELog no_response_msg]) /\
   outcome_of (inr None) (h ++ [ELog no_response_msg]) = NoResponseNotice)
  /\
  (forall c, find_candidate response = Some c ->
   fc_requests (cand_parts c) = [] -> text_segments (cand_parts c) = [] ->
   rounds_loop api send (S n) response h = (inr None, h)).
Proof.
  split.
  - intros Hc. cbn [rounds_loop]. rewrite Hc. split; [reflexivity | apply outcome_notice].
  - intros c Hc Hr Ht. cbn [rounds_loop]. rewrite Hc.
    unfold bind. rewrite (collect_parts_text_only api (cand_parts c) EmptyString [] h Hr), Ht.
    simpl. now rewrite app_nil_r.
Qed.

(** C9 counterexample: a response without candidates ends the turn with
    the same outcome as budget exhaustion. *)
Lemma no_candidate_same_as_exhaustion :
  outcome_of (fst (runChat api_ok send_no_candidate "q" []))
             (snd (runChat api_ok send_no_candidate "q" [])) = NoResponseNotice /\
  outcome_of (fst (runChat api_ok send_always_tool "q" []))
             (snd (runChat api_ok send_always_tool "q" [])) = NoResponseNotice /\
  dispatches_of (snd (runChat api_ok send_no_candidate "q" [])) = [].
Proof. vm_compute. repeat split. Qed.

(** C1 witness: the model that always calls getNetworkStats. *)
Lemma runChat_always_tool_exhausts_budget_witness :
  (forall tr m, exists r, send_always_tool tr m = inr r /\ requests_tool r = true) /\
  exists h', runChat api_ok send_always_tool "q" [] = (inr None, h') /\
    tool_rounds h' = tool_rounds [] + max_rounds /\
    outcome_of (inr None) h' = NoResponseNotice.
Proof.
  assert (Hs : forall tr m, exists r, send_always_tool tr m = inr r /\ requests_tool r = true)
    by (intros tr m; eexists; split; reflexivity).
  split; [exact Hs | apply (runChat_always_tool_exhausts_budget api_ok send_always_tool "q" []); exact Hs].
Defined.

(** C6 witness: the model answering "hello". *)
Lemma runChat_text_first_round_witness :
  runChat api_ok (send_text "hello") "q" [] =
    (inr (Some (concat_str ["hello"])), [] ++ ESend (MText "q") :: map (fun t => ELog (assistant_line t)) ["hello"])
  /\ dispatches_of (snd (runChat api_ok (send_text "hello") "q" [])) = dispatches_of [].
Proof.
  apply (runChat_text_first_round api_ok (send_text "hello") "q" []
           (mkResponse (Some [mkCandidate (Some (mkContent (Some [mkPart (Some "hello") None])))]))
           (mkCandidate (Some (mkContent (Some [mkPart (Some "hello") None])))));
  [reflexivity | reflexivity | reflexivity | discriminate].
Defined.

(** C9 witness: a response with an empty candidate list, and one with a
    candidate whose parts are empty. *)
Lemma rounds_loop_empty_round_witness :
  (rounds_loop api_ok send_no_candidate 4 (mkResponse None) [] =
     (inr None, [] ++ [ELog no_response_msg]) /\
   outcome_of (inr None) ([] ++ [ELog no_response_msg]) = NoResponseNotice) /\
  rounds_loop api_ok send_no_candidate 4
    (mkResponse (Some [mkCandidate (Some (mkContent (Some [])))])) [] = (inr None, []).
Proof.
  destruct (rounds_loop_empty_round api_ok send_no_candidate 3 (mkResponse None) []) as [H1 _].
  destruct (rounds_loop_empty_round api_ok send_no_candidate 3
              (mkResponse (Some [mkCandidate (Some (mkContent (Some [])))])) []) as [_ H2].
  split; [apply H1; reflexivity | apply (H2 (mkCandidate (Some (mkContent (Some []))))); reflexivity].
Defined.

(** ** Trace growth *)

Lemma forallb_no_dispatch d : forallb no_dispatch d = true -> dispatches_of d = [].
Proof.
  induction d as [|e d IH]; [reflexivity|]. simpl.
  destruct e; simpl; try discriminate; exact IH.
Qed.

Section Growth.

Variable ok : Event -> bool.

Lemma grows_ret {A} (a : A) : grows ok (ret a).
Proof. intro h. exists []. now rewrite app_nil_r. Qed.

Lemma grows_throw {A} e : grows ok (throw (A := A) e).
Proof. intro h. exists []. now rewrite app_nil_r. Qed.

Lemma grows_emit ev : ok ev = true -> grows ok (emit ev).
Proof. intros Hev h. exists [ev]. simpl. now rewrite Hev. Qed.

Lemma grows_run_pure {A} (m : P A) : grows ok (run_pure m).
Proof. intro h. exists []. now rewrite app_nil_r. Qed.

Lemma grows_bind {A B} (m : M A) (k : A -> M B) :
  grows ok m -> (forall a, grows ok (k a)) -> grows ok (bind m k).
Proof.
  intros Hm Hk h. unfold bind. destruct (Hm h) as (d1 & E1 & F1).
  destruct (m h) as [[e|a] h1]; simpl in E1; subst h1.
  - exists d1. split; [reflexivity | exact F1].
  - destruct (Hk a (h ++ d1)) as (d2 & E2 & F2). exists (d1 ++ d2).
    rewrite E2, <- app_assoc, forallb_app, F1, F2. split; reflexivity.
Qed.

Lemma grows_try {A} (m : M A) (c : exn -> M A) :
  grows ok m -> (forall e, grows ok (c e)) -> grows ok (try_catch m c).
Proof.
  intros Hm Hc h. unfold try_catch. destruct (Hm h) as (d1 & E1 & F1).
  destruct (m h) as [[e|a] h1]; simpl in E1; subst h1.
  - destruct (Hc e (h ++ d1)) as (d2 & E2 & F2). exists (d1 ++ d2).
    rewrite E2, <- app_assoc, forallb_app, F1, F2. split; reflexivity.
  - exists d1. split; [reflexivity | exact F1].
Qed.

Lemma grows_prop v k : grows ok (prop v k).
Proof. destruct v; first [apply grows_throw | apply grows_ret]. Qed.

Lemma grows_oprop v k : grows ok (oprop v k).
Proof. destruct v; first [apply grows_ret | apply grows_prop]. Qed.

Lemma grows_jorM a (mb : M jv) : grows ok mb -> grows ok (jorM a mb).
Proof. intro H. unfold jorM. destruct (truthy a); [apply grows_ret | exact H]. Qed.

Variable api : list Event -> Req -> exn + Resp.

Lemma grows_useApi r : ok (EApi r) = true -> grows ok (useApi api r).
Proof. intros Hr h. exists [EApi r]. simpl. now rewrite Hr. Qed.

Lemma grows_api_handler nm req err pr :
  ok (EHandler nm) = true -> ok (EApi req) = true -> grows ok (api_handler api nm req err pr).
Proof.
  intros H1 H2. unfold api_handler.
  apply grows_bind; [now apply grows_emit | intros _].
  apply grows_try; [| intros; apply grows_ret].
  apply grows_bind; [now apply grows_useApi | intros resp].
  destruct (negb _); [apply grows_ret | apply grows_run_pure].
Qed.

End Growth.

Create HintDb grows_db.
#[export] Hint Resolve grows_ret grows_throw grows_run_pure grows_prop grows_oprop : grows_db.

(** Handler-level growth: no dispatch, no model message. *)
Ltac grow_tac :=
  repeat first
    [ apply grows_bind; intros
    | apply grows_try; intros
    | apply grows_jorM
    | apply grows_api_handler; reflexivity
    | apply grows_emit; reflexivity
    | progress auto with grows_db
    | match goal with |- grows _ (if ?b then _ else _) => destruct b end
    | match goal with |- grows _ (match ?x with _ => _ end) => destruct x end ].

Lemma executeFunction_grows api fc :
  grows any_event (executeFunction api fc).
Proof.
  unfold executeFunction, getAddressInfo, getAddressTransactions, getAddressTokenBalances,
    getTokenInfo, getTransactionInfo, getLatestBlocks, searchBlockchain, getNetworkStats.
  grow_tac.
Qed.

Lemma V001_executeFunction_trace api fc h :
  exists d, snd (V001.executeFunction api fc h) = h ++ EDispatch fc :: d /\
    dispatches_of d = [].
Proof.
  unfold V001.executeFunction. rewrite bind_emit.
  match goal with
  | |- exists d, snd (?m (h ++ [_])) = _ /\ _ =>
      assert (G : grows no_dispatch m)
  end.
  { unfold getAddressInfo, getAddressTransactions, getAddressTokenBalances,
      getTokenInfo, getTransactionInfo, getLatestBlocks, V001.searchBlockchain, getNetworkStats.
    grow_tac. }
  destruct (G (h ++ [EDispatch fc])) as (d & E & F).
  exists d. split; [| now apply forallb_no_dispatch].
  rewrite E. now rewrite <- app_assoc.
Qed.

Lemma bind_then {S A B} (m : ST S A) (k : A -> ST S B) s :
  bind m k s = match m s with (inl e, s') => (inl e, s') | (inr a, s') => k a s' end.
Proof. reflexivity. Qed.

Lemma try_then {S A} (m : ST S A) (c : exn -> ST S A) s :
  try_catch m c s = match m s with (inl e, s') => c e s' | r => r end.
Proof. reflexivity. Qed.

Section Chat.

Variable api : list Event -> Req -> exn + Resp.
Variable send : list Event -> Msg -> exn + Response.

Lemma collect_parts_grows ps text acc : grows any_event (collect_parts api ps text acc).
Proof.
  revert text acc; induction ps as [|p ps IH]; intros text acc; cbn [collect_parts].
  - apply grows_ret.
  - destruct (text_truthy p).
    + apply grows_bind; [now apply grows_emit | intros; apply IH].
    + destruct (p_functionCall p).
      * apply grows_bind; [apply executeFunction_grows | intros; apply IH].
      * apply IH.
Qed.

Lemma sendMessage_grows m : grows any_event (sendMessage send m).
Proof. intro h. exists [ESend m]. split; reflexivity. Qed.

Lemma after_loop_grows : grows any_event after_loop.
Proof. apply grows_bind; [now apply grows_emit | intros; apply grows_ret]. Qed.

Lemma rounds_loop_grows n r : grows any_event (rounds_loop api send n r).
Proof.
  revert r; induction n as [|n IH]; intros r; cbn [rounds_loop]; [apply after_loop_grows|].
  destruct (find_candidate r); [|apply after_loop_grows].
  apply grows_bind; [apply collect_parts_grows | intros [t crs]].
  destruct crs.
  - destruct (String.eqb t EmptyString); apply grows_ret.
  - apply grows_bind; [apply sendMessage_grows | intros; apply IH].
Qed.

(** [runChat] hands its input, unchanged, to the model first. *)
Lemma runChat_forward input h :
  exists d, snd (runChat api send input h) = h ++ ESend (MText input) :: d.
Proof.
  unfold runChat. rewrite bind_then. unfold sendMessage; cbv zeta.
  destruct (send (h ++ [ESend (MText input)]) (MText input)) as [e|r].
  - exists []. reflexivity.
  - destruct (rounds_loop_grows max_rounds r (h ++ [ESend (MText input)])) as (d & E & _).
    exists d. rewrite E, <- app_assoc. reflexivity.
Qed.

(** One non-exit line of [startChat]: the turn runs, a rejection is
    caught and printed, and the loop goes on with the next line. *)
Lemma startChat_step line rest h :
  String.eqb (toLowerCase line) "exit" = false ->
  startChat api send (line :: rest) h =
    match runChat api send line (h ++ [ELog thinking_msg]) with
    | (inl e, h1) => startChat api send rest (h1 ++ [EErr (error_line e)])
    | (inr _, h1) => startChat api send rest h1
    end.
Proof.
  intros Hx. cbn [startChat]. rewrite Hx.
  rewrite bind_then, try_then, bind_emit, bind_then.
  destruct (runChat api send line (h ++ [ELog thinking_msg])) as [[e|u] h1]; reflexivity.
Qed.


End Chat.

(** ** The earlier variant: history and trace *)

Section Growth001.

Variable ok : Event -> bool.

Lemma growsV_ret {A} (a : A) : growsV ok (ret a).
Proof. intro st. exists []. now rewrite app_nil_r. Qed.

Lemma growsV_bind {A B} (m : V001.MV A) (k : A -> V001.MV B) :
  growsV ok m -> (forall a, growsV ok (k a)) -> growsV ok (bind m k).
Proof.
  intros Hm Hk st. unfold bind. destruct (Hm st) as (d1 & E1 & F1).
  destruct (m st) as [[e|a] st1]; simpl in E1.
  - exists d1. split; [exact E1 | exact F1].
  - destruct (Hk a st1) as (d2 & E2 & F2). exists (d1 ++ d2).
    rewrite E2, E1, <- app_assoc, forallb_app, F1, F2. split; reflexivity.
Qed.

Lemma growsV_liftM {A} (m : M A) : grows ok m -> growsV ok (V001.liftM m).
Proof.
  intros Hm st. unfold V001.liftM. destruct (Hm (snd st)) as (d & E & F).
  destruct (m (snd st)) as [r tr]. simpl in *. exists d. split; assumption.
Qed.

Lemma growsV_push e : growsV ok (V001.push e).
Proof. intro st. exists []. now rewrite app_nil_r. Qed.

Lemma growsV_trim : growsV ok V001.trim_history.
Proof. intro st. exists []. now rewrite app_nil_r. Qed.

End Growth001.

Lemma growsV_generateContent gen : growsV any_event (V001.generateContent gen).
Proof. intro st. exists [EGen (fst st)]. split; reflexivity. Qed.

Lemma forallb_any_event d : forallb any_event d = true.
Proof. induction d; simpl; auto. Qed.

Lemma V001_executeFunction_grows api fc : grows any_event (V001.executeFunction api fc).
Proof.
  intro h. destruct (V001_executeFunction_trace api fc h) as (d & E & _).
  exists (EDispatch fc :: d). split; [exact E | apply forallb_any_event].
Qed.

Lemma V001_run_calls_grows api fcs : growsV any_event (V001.run_calls api fcs).
Proof.
  induction fcs as [|fc fcs IH]; cbn [V001.run_calls]; [apply growsV_ret|].
  apply growsV_bind; [apply growsV_liftM; now apply grows_emit | intros _].
  apply growsV_bind; [apply growsV_liftM, V001_executeFunction_grows | intros v].
  apply growsV_bind; [exact IH | intros; apply growsV_ret].
Qed.

Lemma V001_bind_log {A} s (k : V001.MV A) st :
  (V001.log s ;;; k) st = k (fst st, snd st ++ [ELog s]).
Proof. reflexivity. Qed.

Lemma V001_bind_push {A} e (k : V001.MV A) st :
  (V001.push e ;;; k) st = k (fst st ++ [e], snd st).
Proof. reflexivity. Qed.

Lemma V001_bind_gen {A} gen (k : V001.GenResponse -> V001.MV A) st :
  (r <- V001.generateContent gen ;; k r) st =
  match gen (snd st ++ [EGen (fst st)]) (fst st) with
  | inl e => (inl e, (fst st, snd st ++ [EGen (fst st)]))
  | inr r => k r (fst st, snd st ++ [EGen (fst st)])
  end.
Proof. unfold bind, V001.generateContent. now destruct (gen _ _). Qed.

Section Chat001.

Variable api : list Event -> Req -> exn + Resp.
Variable gen : list Event -> list Entry -> exn + V001.GenResponse.

(** [turn] logs, records the line as a user entry, and sends the
    history ending in that entry to the model. *)
Lemma V001_turn_forward line st :
  exists d, snd (snd (V001.turn api gen line st)) =
    snd st ++ [ELog thinking_msg; EGen (fst st ++ [mkEntry "user" [HText line]])] ++ d.
Proof.
  unfold V001.turn. rewrite V001_bind_log, V001_bind_push, V001_bind_gen. cbn [fst snd].
  destruct (gen _ _) as [e|r].
  - exists []. simpl. now rewrite <- app_assoc.
  - match goal with
    | |- exists d, snd (snd (?K ?st1)) = _ => assert (G : growsV any_event K)
    end.
    { apply growsV_bind; [| intros; repeat (apply growsV_bind; intros);
        first [apply growsV_liftM; now apply grows_emit | apply growsV_push | apply growsV_trim]].
      destruct (V001.functionCalls r).
      - apply growsV_ret.
      - apply growsV_bind; [apply V001_run_calls_grows | intros].
        repeat (apply growsV_bind; intros);
          first [apply growsV_push | apply growsV_generateContent | apply growsV_ret]. }
    match goal with |- exists d, snd (snd (_ ?st1)) = _ => destruct (G st1) as (d & E & _) end.
    exists d. rewrite E. cbn [snd]. now rewrite <- !app_assoc.
Qed.

Lemma V001_startChat_step line rest st :
  String.eqb (toLowerCase line) "exit" = false ->
  V001.startChat api gen (line :: rest) st =
    match V001.turn api gen line st with
    | (inl e, st1) => V001.startChat api gen rest (fst st1, snd st1 ++ [EErr (error_line e)])
    | (inr _, st1) => V001.startChat api gen rest st1
    end.
Proof.
  intros Hx. cbn [V001.startChat]. rewrite Hx, bind_then, try_then.
  destruct (V001.turn api gen line st) as [[e|u] st1]; reflexivity.
Qed.


(** The tool loop of the earlier variant: results come back in call
    order, and the calls are dispatched in that order. *)
Lemma V001_run_calls_order fcs st results st' :
  V001.run_calls api fcs st = (inr results, st') ->
  map fst results = map fc_name fcs /\
  dispatches_of (snd st') = dispatches_of (snd st) ++ fcs.
Proof.
  revert st results st'; induction fcs as [|fc fcs IH]; intros st results st' Hr.
  - injection Hr as <- <-. now rewrite app_nil_r.
  - cbn [V001.run_calls] in Hr. rewrite V001_bind_log, bind_then in Hr.
    destruct (V001_executeFunction_trace api fc (snd (fst st, snd st ++ [ELog ("🔧 Executing: " +++ name_str (fc_name fc) +++ "...")]))) as (d & E & D).
    unfold V001.liftM in Hr.
    destruct (V001.executeFunction api fc _) as [[e|v] tr1]; [discriminate|].
    cbn [snd] in E. subst tr1. rewrite bind_then in Hr.
    destruct (V001.run_calls api fcs _) as [[e|rs] st2] eqn:Er; [discriminate|].
    injection Hr as <- <-.
    destruct (IH _ _ _ Er) as [H1 H2]. split; [simpl; now rewrite H1|].
    rewrite H2. cbn [snd]. rewrite !dispatches_of_app. simpl. rewrite D.
    now rewrite app_nil_r, <- app_assoc.
Qed.

End Chat001.

(** ** Results paired with their calls *)






(** ** Claim theorems: tool-call order and the interactive loop *)




(** C8: a line equal to "exit" after lowercasing ends the session with
    the goodbye message; any other line is handed unchanged to the model
    as the first message of a new turn, and the loop goes on. *)
Theorem startChat_exit_or_forward api send gen line rest :
  (String.eqb (toLowerCase line) "exit" = true ->
     (forall h, startChat api send (line :: rest) h = (inr tt, h ++ [ELog "👋 Goodbye!"])) /\
     (forall st, V001.startChat api gen (line :: rest) st =
                   (inr tt, (fst st, snd st ++ [ELog "👋 Goodbye!"]))))
  /\
  (String.eqb (toLowerCase line) "exit" = false ->
     (forall h, exists h1 d, startChat api send (line :: rest) h = startChat api send rest h1 /\
        h1 = h ++ [ELog thinking_msg; ESend (MText line)] ++ d) /\
     (forall st, exists st1 d, V001.startChat api gen (line :: rest) st = V001.startChat api gen rest st1 /\
        snd st1 = snd st ++ [ELog thinking_msg; EGen (fst st ++ [mkEntry "user" [HText line]])] ++ d)).
Proof.
  split.
  - intros Hx. split.
    + intros h. cbn [startChat]. rewrite Hx. reflexivity.
    + intros st. cbn [V001.startChat]. rewrite Hx. reflexivity.
  - intros Hx. split.
    + intros h. rewrite (startChat_step api send line rest h Hx).
      destruct (runChat_forward api send line (h ++ [ELog thinking_msg])) as (d & E).
      destruct (runChat api send line (h ++ [ELog thinking_msg])) as [[e|u] h1];
        cbn [snd] in E; subst h1.
      * exists ((((h ++ [ELog thinking_msg]) ++ ESend (MText line) :: d) ++ [EErr (error_line e)])),
          (d ++ [EErr (error_line e)]).
        split; [reflexivity|]. now rewrite <- !app_assoc.
      * exists ((h ++ [ELog thinking_msg]) ++ ESend (MText line) :: d), d.
        split; [reflexivity|]. now rewrite <- !app_assoc.
    + intros st. rewrite (V001_startChat_step api gen line rest st Hx).
      destruct (V001_turn_forward api gen line st) as (d & E).
      destruct (V001.turn api gen line st) as [[e|u] st1]; cbn [snd] in E.
      * exists (fst st1, snd st1 ++ [EErr (error_line e)]), (d ++ [EErr (error_line e)]).
        split; [reflexivity|]. cbn [snd]. rewrite E. now rewrite <- !app_assoc.
      * exists st1, d. split; [reflexivity | exact E].
Qed.



(** C8 witness: the line "EXIT", then the line "q". *)
Lemma startChat_exit_or_forward_witness :
  ((forall h, startChat api_ok send_always_tool ["EXIT"] h = (inr tt, h ++ [ELog "👋 Goodbye!"])) /\
   (forall st, V001.startChat api_ok gen_script ["EXIT"] st =
                 (inr tt, (fst st, snd st ++ [ELog "👋 Goodbye!"]))))
  /\
  ((forall h, exists h1 d, startChat api_ok send_always_tool ["q"] h = startChat api_ok send_always_tool [] h1 /\
      h1 = h ++ [ELog thinking_msg; ESend (MText "q")] ++ d) /\
   (forall st, exists st1 d, V001.startChat api_ok gen_script ["q"] st = V001.startChat api_ok gen_script [] st1 /\
      snd st1 = snd st ++ [ELog thinking_msg; EGen (fst st ++ [mkEntry "user" [HText "q"]])] ++ d)).
Proof.
  split.
  - apply (proj1 (startChat_exit_or_forward api_ok send_always_tool gen_script "EXIT" [])).
    reflexivity.
  - apply (proj2 (startChat_exit_or_forward api_ok send_always_tool gen_script "q" [])).
    reflexivity.
Defined.

(** ** searchBlockchain *)

Lemma api_handler_obj api nm req err pr h fs h' :
  api_handler api nm req err pr h = (inr (JObj fs), h') ->
  exists d, api (h ++ [EHandler nm; EApi req]) req = inr (mkResp 200 d) /\
    fst (pr d tt) = inr (JObj fs).
Proof.
  rewrite api_handler_run. intro H. injection H as Hv _.
  destruct (api (h ++ [EHandler nm; EApi req]) req) as [e|[st dd]]; [discriminate|].
  cbn [status data] in Hv.
  destruct (Nat.eqb st 200) eqn:Es; simpl in Hv; [|discriminate].
  apply Nat.eqb_eq in Es; subst st.
  destruct (fst (pr dd tt)) as [e|v] eqn:Ep; [discriminate|]. subst v.
  exists dd. split; [reflexivity | exact Ep].
Qed.

Lemma P_bind_inv {A B} (m : P A) (k : A -> P B) v :
  fst (bind m k tt) = inr v -> exists a, fst (m tt) = inr a /\ fst (k a tt) = inr v.
Proof.
  unfold bind. destruct (m tt) as [[e|a] []]; simpl; intro H; [discriminate | eauto].
Qed.

Lemma prop_inv v k x :
  fst (prop (S := unit) v k tt) = inr x -> x = field v k /\ v <> JUndef /\ v <> JNull.
Proof.
  destruct v; simpl; intro H; try discriminate; injection H as <-;
    (split; [reflexivity | split; discriminate]).
Qed.

Lemma prop_nonnull v k : v <> JUndef -> v <> JNull -> prop (S := unit) v k = ret (field v k).
Proof. destruct v; intros H1 H2; congruence || reflexivity. Qed.

Lemma mapM_ok {A B} (f : A -> P B) l ys :
  fst (mapM f l tt) = inr ys ->
  length ys = length l /\ forall x, In x l -> exists y, fst (f x tt) = inr y.
Proof.
  revert ys; induction l as [|x l IH]; intros ys H.
  - injection H as <-. split; [reflexivity | intros x []].
  - cbn [mapM] in H. apply P_bind_inv in H as (y & Hy & H).
    apply P_bind_inv in H as (ys' & Hys & H). injection H as <-.
    destruct (IH ys' Hys) as [Hl Hx]. split; [simpl; now rewrite Hl|].
    intros z [<-|Hz]; [eauto | now apply Hx].
Qed.

Lemma search_item_nonnull q x y :
  fst (search_item q x tt) = inr y -> x <> JUndef /\ x <> JNull.
Proof.
  unfold search_item. intro H. apply P_bind_inv in H as (ty & Hty & _).
  apply prop_inv in Hty as (_ & H1 & H2). split; assumption.
Qed.

Lemma ens_candidate_spec x :
  x <> JUndef -> x <> JNull -> fst (ens_candidate x tt) = inr (carries_ens_address x).
Proof.
  intros H1 H2. unfold ens_candidate, carries_ens_address, item_address.
  rewrite !(prop_nonnull x _ H1 H2).
  unfold bind, ret, jorM, jor. cbn [fst].
  destruct (is_str (field x "type") "ens_domain" || is_str (field x "type") "address"); [|reflexivity].
  destruct (truthy (field x "address_hash")); reflexivity.
Qed.

Lemma carries_truthy x : carries_ens_address x = true -> truthy x = true.
Proof. intro H; destruct x; try reflexivity; cbv in H; discriminate. Qed.

Lemma findM_find (l : list jv) :
  (forall x, In x l -> fst (ens_candidate x tt) = inr (carries_ens_address x)) ->
  fst (findM ens_candidate l tt) = inr (match find carries_ens_address l with Some x => x | None => JUndef end).
Proof.
  induction l as [|x l IH]; intro H; [reflexivity|].
  cbn [findM find]. unfold bind.
  assert (Hx := H x (or_introl eq_refl)).
  destruct (ens_candidate x tt) as [r []]. cbn [fst] in Hx. subst r.
  destruct (carries_ens_address x); [reflexivity|].
  apply IH. intros y Hy. apply H. now right.
Qed.

Lemma slice_end_10 len : slice_end len 10 = Nat.min 10 len.
Proof.
  unfold slice_end. cbn [Z.ltb Z.compare].
  change 10%Z with (Z.of_nat 10). rewrite <- Nat2Z.inj_min. apply Nat2Z.id.
Qed.

Lemma firstn_min_length {A} n (l : list A) : firstn (Nat.min n (length l)) l = firstn n l.
Proof.
  destruct (Nat.le_ge_cases n (length l)) as [H|H].
  - now rewrite Nat.min_l.
  - rewrite Nat.min_r by exact H. rewrite firstn_all, firstn_all2 by exact H. reflexivity.
Qed.

Lemma ltb_10_of_nat n : Z.ltb 10 (Z.of_nat n) = Nat.ltb 10 n.
Proof.
  destruct (Z.ltb_spec 10 (Z.of_nat n)); destruct (Nat.ltb_spec 10 n); lia.
Qed.

(** The array reads of [search_result]: [results] is the [items] array
    (or [[]] for a falsy one), any other value makes [slice] or [map]
    throw; the hits shown are its first ten. *)
Lemma search_lists q d lim pr :
  fst (slice0 (S := unit) (jor (field d "items") (JArr [])) 10 tt) = inr lim ->
  fst (jmap (search_item q) lim tt) = inr pr ->
  exists ys,
    jor (field d "items") (JArr []) = JArr (upstream_items d) /\
    lim = JArr (firstn 10 (upstream_items d)) /\ pr = JArr ys /\
    length ys = length (firstn 10 (upstream_items d)) /\
    (forall x, In x (firstn 10 (upstream_items d)) -> x <> JUndef /\ x <> JNull).
Proof.
  intros Hl Hm. unfold upstream_items.
  assert (Hres : jor (field d "items") (JArr []) =
                 JArr (match field d "items" with JArr l => l | _ => [] end)).
  { unfold jor in Hl |- *. destruct (truthy (field d "items")) eqn:T.
    - destruct (field d "items") as [| |b|z|s|a|o]; try discriminate T; try reflexivity;
        cbn in Hl; try discriminate Hl.
      injection Hl as <-. cbn in Hm. discriminate.
    - destruct (field d "items"); try reflexivity. discriminate T. }
  rewrite Hres in Hl. cbn in Hl. injection Hl as <-.
  rewrite slice_end_10, firstn_min_length in Hm |- *.
  cbn [jmap] in Hm. apply P_bind_inv in Hm as (ys & Hys & Hm). injection Hm as <-.
  destruct (mapM_ok _ _ _ Hys) as [Hlen Hall].
  exists ys. split; [exact Hres|]. split; [reflexivity|]. split; [reflexivity|].
  split; [exact Hlen|].
  intros x Hx. destruct (Hall x Hx) as (y & Hy). now apply (search_item_nonnull q x y).
Qed.

(** ** Claim theorem: searchBlockchain *)

(** C10: when [searchBlockchain] returns a result object (the request
    answered 200 with data [d]), its [results] array holds at most ten
    entries, [truncated] is true exactly when the upstream [items] array
    has more than ten, and [resolvedAddress] is [null] for a query not
    ending in ".eth" and otherwise the address of the first of the first
    ten hits of type ens_domain or address that carries one ([null] if
    none does). *)
Theorem searchBlockchain_success api q h fs h' :
  searchBlockchain api (JStr q) h = (inr (JObj fs), h') ->
  exists d,
    api (h ++ [EHandler "searchBlockchain"; EApi (search_req (JStr q))]) (search_req (JStr q)) =
      inr (mkResp 200 d) /\
    (exists rs, field (JObj fs) "results" = JArr rs /\ length rs <= 10 /\
       length rs = Nat.min 10 (upstream_count d)) /\
    field (JObj fs) "truncated" = JBool (Nat.ltb 10 (upstream_count d)) /\
    (ends_with_str q ".eth" = false -> field (JObj fs) "resolvedAddress" = JNull) /\
    (ends_with_str q ".eth" = true ->
       field (JObj fs) "resolvedAddress" = resolved_spec (firstn 10 (upstream_items d))).
Proof.
  intro Hrun. unfold searchBlockchain in Hrun.
  destruct (api_handler_obj _ _ _ _ _ _ _ _ Hrun) as (d & Hapi & Hp).
  exists d. split; [exact Hapi|].
  unfold search_result in Hp.
  apply P_bind_inv in Hp as (items & Hi & Hp). apply prop_inv in Hi as (-> & _ & _).
  apply P_bind_inv in Hp as (lim & Hl & Hp).
  apply P_bind_inv in Hp as (pr & Hm & Hp).
  destruct (search_lists (JStr q) d _ _ Hl Hm) as (ys & Hres & -> & -> & Hlen & Hnn).
  remember (firstn 10 (upstream_items d)) as L eqn:EL.
  apply P_bind_inv in Hp as (e & He & Hp). cbn [ends_with ret fst] in He. injection He as <-.
  apply P_bind_inv in Hp as (ra & Hra & Hp).
  apply P_bind_inv in Hp as (rl & Hrl & Hp). rewrite Hres in Hrl.
  cbn [prop ret fst] in Hrl. injection Hrl as <-.
  apply P_bind_inv in Hp as (pl & Hpl & Hp). cbn [prop ret fst] in Hpl. injection Hpl as <-.
  cbn [ret fst] in Hp. injection Hp as <-.
  unfold upstream_count. split; [|split; [|split]].
  - exists ys. split; [reflexivity|]. rewrite Hlen, EL, length_firstn.
    split; [apply Nat.le_min_l | reflexivity].
  - transitivity (JBool (Z.ltb 10 (Z.of_nat (length (upstream_items d))))); [reflexivity|].
    now rewrite ltb_10_of_nat.
  - intros E. rewrite E in Hra. cbn [ret fst] in Hra. injection Hra as <-. reflexivity.
  - intros E. rewrite E in Hra. transitivity ra; [reflexivity|].
    apply P_bind_inv in Hra as (er & Hf & Hra). cbn [jfind] in Hf.
    rewrite findM_find in Hf
      by (intros x Hx; destruct (Hnn x Hx); now apply ens_candidate_spec).
    injection Hf as <-. unfold resolved_spec.
    destruct (find carries_ens_address L) as [x|] eqn:F.
    + apply find_some in F as [Hin Hc].
      destruct (Hnn x Hin) as [N1 N2].
      rewrite (carries_truthy x Hc), !(prop_nonnull x _ N1 N2) in Hra.
      unfold item_address, jor. unfold bind, ret, jorM in Hra. cbn [fst] in Hra.
      destruct (truthy (field x "address_hash")); injection Hra as <-; reflexivity.
    + cbn [truthy ret fst] in Hra. injection Hra as <-. reflexivity.
Qed.

(** C10 witness: twelve hits for "vitalik.eth"; the ENS hit resolves. *)
Lemma searchBlockchain_success_witness :
  exists fs h',
    searchBlockchain api_search (JStr "vitalik.eth") [] = (inr (JObj fs), h') /\
    exists d,
      api_search ([] ++ [EHandler "searchBlockchain"; EApi (search_req (JStr "vitalik.eth"))])
        (search_req (JStr "vitalik.eth")) = inr (mkResp 200 d) /\
      (exists rs, field (JObj fs) "results" = JArr rs /\ length rs <= 10 /\
         length rs = Nat.min 10 (upstream_count d)) /\
      field (JObj fs) "truncated" = JBool (Nat.ltb 10 (upstream_count d)) /\
      (ends_with_str "vitalik.eth" ".eth" = false -> field (JObj fs) "resolvedAddress" = JNull) /\
      (ends_with_str "vitalik.eth" ".eth" = true ->
         field (JObj fs) "resolvedAddress" = resolved_spec (firstn 10 (upstream_items d))).
Proof.
  eexists _, _. split; [vm_compute; reflexivity|].
  eapply (searchBlockchain_success api_search "vitalik.eth" []). vm_compute. reflexivity.
Defined.

(** ** Claim theorems: dispatch and the history *)

(** C2 (violated in src/unnamed/part_001): the earlier [executeFunction]
    reads [args.address] on the raw [args], so a getAddressInfo request
    without [args] throws a TypeError to its caller; the cli.ts version,
    which reads through [args || {}], never rejects. *)
Theorem V001_dispatch_throws_without_args api h :
  V001.executeFunction api (mkCall None (Some "getAddressInfo") JUndef) h =
    (inl (type_error "Cannot read properties of undefined (reading 'address')"),
     h ++ [EDispatch (mkCall None (Some "getAddressInfo") JUndef)]) /\
  (forall fc, exists v d, executeFunction api fc h = (inr v, h ++ EDispatch fc :: d)).
Proof.
  split.
  - unfold V001.executeFunction. rewrite bind_emit. reflexivity.
  - intros fc. destruct (executeFunction_ok api fc h) as (v & d & E & _).
    exists v, d. exact E.
Qed.

(** C3 (amended): [executeFunction] checks no argument. For a known tool
    name, whatever the arguments (a required one missing included), it
    enters the tool's handler once, called with the named arguments read
    from [args || {}]; the handler's request carries each required
    argument's value, so [undefined] when it is missing; the handler's own
    result is returned, error-tagged when that request fails. *)
Theorem dispatch_has_no_argument_check api fc n h :
  fc_name fc = Some n -> known_tool n = true ->
  exists r v,
    executeFunction api fc h = (inr v, h ++ [EDispatch fc; EHandler n; EApi r]) /\
    tool_handler api n (jor (fc_args fc) (JObj [])) (h ++ [EDispatch fc]) =
      (inr v, h ++ [EDispatch fc; EHandler n; EApi r]) /\
    (forall p, In p (required_params n) -> req_arg r = field (jor (fc_args fc) (JObj [])) p) /\
    (forall p, In p (required_params n) -> field (jor (fc_args fc) (JObj [])) p = JUndef ->
       req_arg r = JUndef) /\
    (api_fails api (h ++ [EDispatch fc; EHandler n; EApi r]) r = true -> is_error_tagged v = true).
Proof.
  destruct fc as [id [n'|] args]; intros Hn Hk; [injection Hn as -> | discriminate].
  destruct (known_tool_cases n Hk) as [E|[E|[E|[E|[E|[E|[E|E]]]]]]]; subst n;
  unfold executeFunction, tool_handler; cbn [fc_name fc_args String.eqb Ascii.eqb Bool.eqb andb];
  rewrite !bind_emit;
  repeat (rewrite prop_jor, bind_ret);
  unfold getAddressInfo, getAddressTransactions, getAddressTokenBalances, getTokenInfo,
    getTransactionInfo, getLatestBlocks, searchBlockchain, getNetworkStats;
  lazymatch goal with
  | |- context [api_handler ?a ?nm ?req ?err ?pr ?h0] =>
      destruct (handler_shape a nm req err pr h0 eq_refl) as (v & Hr & Hf);
      exists req, v; rewrite Hr; rewrite <- app_assoc in Hf;
      rewrite <- app_assoc; cbn [app];
      split; [reflexivity | split; [reflexivity | split; [| split; [| exact Hf]]]];
      intros p Hp; cbn in Hp;
      repeat (destruct Hp as [<-|Hp]; [intros; assumption || reflexivity|]);
      destruct Hp
  end.
Qed.


(** C3 counterexample: getAddressInfo requires [address]; a call without
    it still enters the handler, which requests the address [undefined]
    and returns an untagged result. *)
Lemma getAddressInfo_missing_address_reaches_handler :
  required_params "getAddressInfo" = ["address"] /\
  exists v,
    executeFunction api_ok (mkCall None (Some "getAddressInfo") (JObj [])) [] =
      (inr v, [EDispatch (mkCall None (Some "getAddressInfo") (JObj []));
               EHandler "getAddressInfo";
               EApi (mkReq "/addresses/{address_hash}" "get" (path_opts "address_hash" JUndef))]) /\
    is_error_tagged v = false.
Proof.
  split; [reflexivity|]. eexists. split; vm_compute; reflexivity.
Qed.

(** C3 witness: the call above. *)
Lemma dispatch_has_no_argument_check_witness :
  exists r v,
    executeFunction api_ok (mkCall None (Some "getAddressInfo") (JObj [])) [] =
      (inr v, [] ++ [EDispatch (mkCall None (Some "getAddressInfo") (JObj []));
                     EHandler "getAddressInfo"; EApi r]) /\
    tool_handler api_ok "getAddressInfo" (jor (JObj []) (JObj []))
      ([] ++ [EDispatch (mkCall None (Some "getAddressInfo") (JObj []))]) =
      (inr v, [] ++ [EDispatch (mkCall None (Some "getAddressInfo") (JObj []));
                     EHandler "getAddressInfo"; EApi r]) /\
    (forall p, In p (required_params "getAddressInfo") ->
       req_arg r = field (jor (JObj []) (JObj [])) p) /\
    (forall p, In p (required_params "getAddressInfo") ->
       field (jor (JObj []) (JObj [])) p = JUndef -> req_arg r = JUndef) /\
    (api_fails api_ok ([] ++ [EDispatch (mkCall None (Some "getAddressInfo") (JObj []));
                              EHandler "getAddressInfo"; EApi r]) r = true ->
     is_error_tagged v = true).
Proof.
  apply (dispatch_has_no_argument_check api_ok (mkCall None (Some "getAddressInfo") (JObj []))
           "getAddressInfo" []); reflexivity.
Defined.

(** C4 (violated in src/unnamed/part_001): the history keeps its last 40
    entries. Twenty "hi" lines, a "tool" line answered by one tool call,
    then nineteen "hi" lines: before the last line the call turn and its
    result turn sit side by side; after it, the result turn heads the
    history and no call turn is left. *)
Theorem trim_splits_tool_exchange :
  has_pair (fst (snd (V001.startChat api_ok gen_script (firstn 39 trim_script) ([], [])))) = true /\
  length (fst (snd (V001.startChat api_ok gen_script trim_script ([], [])))) = 40 /\
  option_map is_resp_entry (hd_error (fst (snd (V001.startChat api_ok gen_script trim_script ([], []))))) =
    Some true /\
  existsb is_call_entry (fst (snd (V001.startChat api_ok gen_script trim_script ([], [])))) = false.
Proof. vm_compute. repeat split. Qed.

(** * Further properties of the code *)

(** ** Dispatch: unknown names, failed requests, missing arguments *)

Lemma unknown_msg_tagged name : is_error_tagged (JStr (unknown_function_msg name)) = true.
Proof. reflexivity. Qed.

(** Unknown tool names, in both versions: the tagged "Unknown function"
    string (with "undefined" for a call without a name) is returned, no
    handler is entered and no request is issued. *)
Theorem executeFunction_unknown_name api fc h :
  match fc_name fc with Some n => known_tool n | None => false end = false ->
  is_error_tagged (JStr (unknown_function_msg (fc_name fc))) = true /\
  executeFunction api fc h = (inr (JStr (unknown_function_msg (fc_name fc))), h ++ [EDispatch fc]) /\
  V001.executeFunction api fc h = (inr (JStr (unknown_function_msg (fc_name fc))), h ++ [EDispatch fc]).
Proof.
  intro Hk. split; [apply unknown_msg_tagged|].
  split; [exact (proj1 (executeFunction_shape api fc h) Hk)|].
  destruct fc as [id [n|] args]; [|reflexivity].
  unfold V001.executeFunction; cbn [fc_name fc_args] in *; rewrite bind_emit.
  repeat match goal with
         | |- context [String.eqb n ?s] =>
             let E := fresh "E" in
             destruct (String.eqb n s) eqn:E;
             [apply String.eqb_eq in E; subst n; vm_compute in Hk; discriminate|]
         end.
  reflexivity.
Qed.



(** [args || {}] (cli.ts): a call whose [args] is missing, [null] or
    falsy is handled as one with [args = {}]: same handler, same request,
    same result (for a Blockscout that answers by the request alone). *)
Theorem executeFunction_falsy_args api id n a h :
  (forall tr r, api tr r = api [] r) ->
  truthy a = false ->
  exists v d,
    executeFunction api (mkCall id n a) h = (inr v, h ++ EDispatch (mkCall id n a) :: d) /\
    executeFunction api (mkCall id n (JObj [])) h =
      (inr v, h ++ EDispatch (mkCall id n (JObj [])) :: d).
Proof.
  intros Hind Hf. unfold executeFunction; cbn [fc_name fc_args]; rewrite !bind_emit.
  assert (E : jor a (JObj []) = jor (JObj []) (JObj [])) by (unfold jor; rewrite Hf; reflexivity).
  rewrite E.
  destruct n as [n|]; [|eexists _, []; split; reflexivity].
  repeat match goal with
         | |- context [if String.eqb n ?s then _ else _] => destruct (String.eqb n s)
         end;
  repeat rewrite prop_jor; repeat rewrite bind_ret;
  unfold getAddressInfo, getAddressTransactions, getAddressTokenBalances, getTokenInfo,
    getTransactionInfo, getLatestBlocks, searchBlockchain, getNetworkStats;
  repeat rewrite api_handler_run; repeat rewrite (Hind (_ ++ _));
  (eexists _, _; split; try rewrite <- app_assoc; reflexivity).
Qed.

(** ** Data processing that cannot throw *)

Lemma succeeds_ret {A} (a : A) : succeeds (ret a).
Proof. now exists a. Qed.

Lemma succeeds_bind {A B} (m : P A) (k : A -> P B) :
  succeeds m -> (forall a, succeeds (k a)) -> succeeds (bind m k).
Proof.
  intros [a Ha] Hk. unfold succeeds. rewrite bind_then.
  destruct (m tt) as [[e|a'] []]; cbn [fst] in Ha; [discriminate|].
  injection Ha as ->. apply Hk.
Qed.

Lemma succeeds_prop v k : v <> JUndef -> v <> JNull -> succeeds (prop v k).
Proof. intros H1 H2. rewrite prop_nonnull by assumption. apply succeeds_ret. Qed.

Lemma succeeds_prop_truthy v k : truthy v = true -> succeeds (prop v k).
Proof. intro H. destruct v; try discriminate H; apply succeeds_ret. Qed.

Lemma succeeds_oprop v k : succeeds (oprop v k).
Proof. destruct v; apply succeeds_ret. Qed.

Lemma succeeds_jorM a (mb : P jv) : succeeds mb -> succeeds (jorM a mb).
Proof. intro H. unfold jorM. destruct (truthy a); [apply succeeds_ret | exact H]. Qed.

Ltac succ_tac :=
  repeat first
    [ apply succeeds_bind; intros
    | apply succeeds_ret
    | apply succeeds_oprop
    | apply succeeds_jorM
    | apply succeeds_prop; assumption
    | match goal with H : truthy ?v = true |- succeeds (prop ?v _) =>
        apply succeeds_prop_truthy; exact H end
    | match goal with |- succeeds (if ?b then _ else _) => destruct b eqn:? end ].

Lemma mapM_Forall2 {A B} (f : A -> P B) l ys :
  fst (mapM f l tt) = inr ys <-> Forall2 (fun x y => fst (f x tt) = inr y) l ys.
Proof.
  revert ys; induction l as [|x l IH]; intros ys; split; intro H.
  - injection H as <-. constructor.
  - inversion H; reflexivity.
  - cbn [mapM] in H. apply P_bind_inv in H as (y & Hy & H).
    apply P_bind_inv in H as (ys' & Hys & H). injection H as <-.
    constructor; [exact Hy | now apply IH].
  - inversion H as [|? y ? ys' Hy Hys]; subst. apply IH in Hys.
    cbn [mapM]. unfold bind. destruct (f x tt) as [r []]; cbn [fst] in Hy; subst r.
    destruct (mapM f l tt) as [r []]; cbn [fst] in Hys; subst r. reflexivity.
Qed.

Lemma mapM_all {A B} (f : A -> P B) l :
  (forall x, In x l -> succeeds (f x)) ->
  exists ys, Forall2 (fun x y => fst (f x tt) = inr y) l ys.
Proof.
  induction l as [|x l IH]; intro H; [exists []; constructor|].
  destruct (H x (or_introl eq_refl)) as [y Hy].
  destruct IH as [ys Hys]; [intros z Hz; apply H; now right|].
  exists (y :: ys). now constructor.
Qed.

Lemma oprop_any {S} v k : exists w, @oprop S v k = ret w.
Proof. destruct v; eexists; reflexivity. Qed.

Lemma tx_summary_ok tx : tx <> JUndef -> tx <> JNull -> succeeds (tx_summary tx).
Proof. intros H1 H2. unfold tx_summary. succ_tac. Qed.

Lemma block_summary_ok b : b <> JUndef -> b <> JNull -> succeeds (block_summary b).
Proof. intros H1 H2. unfold block_summary. succ_tac. Qed.

Lemma tx_summary_nonnull tx y : fst (tx_summary tx tt) = inr y -> tx <> JUndef /\ tx <> JNull.
Proof.
  unfold tx_summary. intro H. apply P_bind_inv in H as (a & Ha & _).
  apply prop_inv in Ha as (_ & H1 & H2). split; assumption.
Qed.

Lemma block_summary_nonnull b y : fst (block_summary b tt) = inr y -> b <> JUndef /\ b <> JNull.
Proof.
  unfold block_summary. intro H. apply P_bind_inv in H as (a & Ha & _).
  apply prop_inv in Ha as (_ & H1 & H2). split; assumption.
Qed.

Lemma slice_end_count len k : slice_end len k = slice_count len k.
Proof.
  unfold slice_end, slice_count.
  destruct (Z.ltb_spec k 0); destruct (Z.leb_spec 0 k); lia.
Qed.

Lemma field_items_obj d l : field d "items" = JArr l -> d <> JUndef /\ d <> JNull.
Proof. destruct d; cbn; intro H; try discriminate H; split; discriminate. Qed.

Lemma Forall2_in_l {A B} (R : A -> B -> Prop) l ys x :
  Forall2 R l ys -> In x l -> exists y, R x y.
Proof.
  intro H; induction H as [|a b l ys Hab _ IH]; intro Hin; [destruct Hin|].
  destruct Hin as [<-|Hx]; eauto.
Qed.

(** [data.items?.slice(0, k) || []] followed by [.map(f)], for a
    callback [f] that throws exactly on a [null]/[undefined] element. *)
Lemma items_prefix_map (f : jv -> P jv) d l k :
  (forall x, x <> JUndef -> x <> JNull -> succeeds (f x)) ->
  (forall x y, fst (f x tt) = inr y -> x <> JUndef /\ x <> JNull) ->
  field d "items" = JArr l ->
  ((forall x, In x (firstn (slice_count (length l) k) l) -> x <> JUndef /\ x <> JNull) ->
   exists ys, fst ((txs <- items_prefix d k ;; jmap f txs) tt) = inr (JArr ys) /\
     Forall2 (fun x y => fst (f x tt) = inr y) (firstn (slice_count (length l) k) l) ys) /\
  ((exists x, In x (firstn (slice_count (length l) k) l) /\ (x = JUndef \/ x = JNull)) ->
   exists e, fst ((txs <- items_prefix d k ;; jmap f txs) tt) = inl e).
Proof.
  intros Hok Hnn Hi. destruct (field_items_obj d l Hi) as [D1 D2].
  assert (Hpre : (txs <- items_prefix d k ;; jmap f txs) tt =
                 (ys <- mapM f (firstn (slice_count (length l) k) l) ;; ret (JArr ys)) tt).
  { unfold items_prefix. rewrite (prop_nonnull d _ D1 D2), bind_then. cbn [ret].
    rewrite Hi. cbn. now rewrite slice_end_count. }
  rewrite Hpre. split.
  - intros Hall. destruct (mapM_all f (firstn (slice_count (length l) k) l)) as [ys Hys].
    { intros x Hx. destruct (Hall x Hx). now apply Hok. }
    exists ys. split; [|exact Hys]. apply mapM_Forall2 in Hys.
    unfold bind. destruct (mapM f _ tt) as [r []]; cbn [fst] in Hys; subst r. reflexivity.
  - intros (x & Hx & Hnull). unfold bind.
    destruct (mapM f _ tt) as [[e|ys] []] eqn:Em; [now exists e|].
    exfalso. assert (Hf : fst (mapM f (firstn (slice_count (length l) k) l) tt) = inr ys)
      by now rewrite Em.
    apply mapM_Forall2 in Hf. destruct (Forall2_in_l _ _ _ x Hf Hx) as (y & Hy).
    destruct (Hnn x y Hy). destruct Hnull; contradiction.
Qed.

(** ** The list tools: how many items, which ones, and their defaults *)

(** getAddressTransactions (cli.ts): on a 200 answer whose [items] is an
    array, the result is the summaries of the first [slice_count] items
    in order: [min(limit, n)] of them, all but the last [-limit] for a
    negative limit, and 10 when [limit] is not given. A [null] among them
    makes the whole result an error-tagged string. *)
Theorem getAddressTransactions_first_items api address limit k h d l :
  api (h ++ [EHandler "getAddressTransactions"; EApi (tx_req address)]) (tx_req address) =
    inr (mkResp 200 d) ->
  field d "items" = JArr l ->
  (limit = JUndef /\ k = 10%Z \/ limit = JNum k) ->
  exists v,
    getAddressTransactions api address limit h =
      (inr v, h ++ [EHandler "getAddressTransactions"; EApi (tx_req address)]) /\
    ((forall x, In x (firstn (slice_count (length l) k) l) -> x <> JUndef /\ x <> JNull) ->
     exists ys, v = JArr ys /\
       Forall2 (fun tx y => fst (tx_summary tx tt) = inr y) (firstn (slice_count (length l) k) l) ys) /\
    ((exists x, In x (firstn (slice_count (length l) k) l) /\ (x = JUndef \/ x = JNull)) ->
     is_error_tagged v = true).
Proof.
  intros Hapi Hi Hk.
  destruct (items_prefix_map tx_summary d l k tx_summary_ok tx_summary_nonnull Hi) as [Hs Hf].
  unfold getAddressTransactions. cbv zeta.
  assert (Lim : match limit with JUndef => 10%Z | _ => to_integer limit end = k)
    by (destruct Hk as [[-> ->] | ->]; reflexivity).
  rewrite Lim, api_handler_run. fold (tx_req address). rewrite Hapi.
  cbn [status data negb Nat.eqb]. cbv beta.
  eexists; split; [reflexivity|]. split.
  - intro Hall. destruct (Hs Hall) as (ys & Hys & HF). rewrite Hys. now exists ys.
  - intro Hx. destruct (Hf Hx) as (e & He). rewrite He. reflexivity.
Qed.

(** getLatestBlocks (cli.ts): the same with [count], 5 by default. *)
Theorem getLatestBlocks_first_items api count k h d l :
  api (h ++ [EHandler "getLatestBlocks"; EApi blocks_req]) blocks_req = inr (mkResp 200 d) ->
  field d "items" = JArr l ->
  (count = JUndef /\ k = 5%Z \/ count = JNum k) ->
  exists v,
    getLatestBlocks api count h = (inr v, h ++ [EHandler "getLatestBlocks"; EApi blocks_req]) /\
    ((forall x, In x (firstn (slice_count (length l) k) l) -> x <> JUndef /\ x <> JNull) ->
     exists ys, v = JArr ys /\
       Forall2 (fun b y => fst (block_summary b tt) = inr y) (firstn (slice_count (length l) k) l) ys) /\
    ((exists x, In x (firstn (slice_count (length l) k) l) /\ (x = JUndef \/ x = JNull)) ->
     is_error_tagged v = true).
Proof.
  intros Hapi Hi Hk.
  destruct (items_prefix_map block_summary d l k block_summary_ok block_summary_nonnull Hi) as [Hs Hf].
  unfold getLatestBlocks. cbv zeta.
  assert (Lim : match count with JUndef => 5%Z | _ => to_integer count end = k)
    by (destruct Hk as [[-> ->] | ->]; reflexivity).
  rewrite Lim, api_handler_run. fold blocks_req. rewrite Hapi.
  cbn [status data negb Nat.eqb]. cbv beta.
  eexists; split; [reflexivity|]. split.
  - intro Hall. destruct (Hs Hall) as (ys & Hys & HF). rewrite Hys. now exists ys.
  - intro Hx. destruct (Hf Hx) as (e & He). rewrite He. reflexivity.
Qed.

(** A 200 answer without [items] (absent or [null]) gives the empty
    list, not an error, in both list tools. *)
Theorem list_tools_missing_items api address limit count h d :
  d <> JUndef -> d <> JNull -> (field d "items" = JUndef \/ field d "items" = JNull) ->
  (api (h ++ [EHandler "getAddressTransactions"; EApi (tx_req address)]) (tx_req address) =
     inr (mkResp 200 d) ->
   fst (getAddressTransactions api address limit h) = inr (JArr [])) /\
  (api (h ++ [EHandler "getLatestBlocks"; EApi blocks_req]) blocks_req = inr (mkResp 200 d) ->
   fst (getLatestBlocks api count h) = inr (JArr [])).
Proof.
  intros D1 D2 Hn. split; intro Hapi.
  - unfold getAddressTransactions. cbv zeta. rewrite api_handler_run. fold (tx_req address).
    rewrite Hapi. cbn [status data negb Nat.eqb fst]. cbv beta. unfold items_prefix.
    rewrite (prop_nonnull d _ D1 D2). destruct Hn as [E|E]; rewrite E; reflexivity.
  - unfold getLatestBlocks. cbv zeta. rewrite api_handler_run. fold blocks_req.
    rewrite Hapi. cbn [status data negb Nat.eqb fst]. cbv beta. unfold items_prefix.
    rewrite (prop_nonnull d _ D1 D2). destruct Hn as [E|E]; rewrite E; reflexivity.
Qed.

(** ** The function-calling loop: its budget, its failures, its answer *)

Section LoopFacts.

Variable api : list Event -> Req -> exn + Resp.
Variable send : list Event -> Msg -> exn + Response.

Lemma tool_rounds_no_send d : sends_of d = [] -> tool_rounds d = 0.
Proof. unfold tool_rounds. intros ->. reflexivity. Qed.

(** What any run of the loop does with [n] rounds left. *)
Lemma rounds_loop_facts n response h r h' :
  rounds_loop api send n response h = (r, h') ->
  exists d, h' = h ++ d /\ length (sends_of d) <= n /\ tool_rounds d = length (sends_of d) /\
    (forall e, r = inl e ->
       exists pre m, h' = pre ++ [ESend m] /\ send (pre ++ [ESend m]) m = inl e) /\
    (forall t, r = inr (Some t) ->
       String.eqb t EmptyString = false /\
       exists c,
         ((find_candidate response = Some c /\ sends_of d = []) \/
          exists pre m post r0, h' = pre ++ ESend m :: post /\ sends_of post = [] /\
            send (pre ++ [ESend m]) m = inr r0 /\ find_candidate r0 = Some c) /\
         fc_requests (cand_parts c) = [] /\ t = concat_str (text_segments (cand_parts c))).
Proof.
  revert response h r h'; induction n as [|n IH]; intros response h r h' Hrun.
  - injection Hrun as <- <-. exists [ELog no_response_msg].
    split; [reflexivity|]. split; [cbn; lia|]. split; [reflexivity|].
    split; intros ? E; discriminate E.
  - cbn [rounds_loop] in Hrun.
    destruct (find_candidate response) as [c|] eqn:Hc.
    2: { injection Hrun as <- <-. exists [ELog no_response_msg].
         split; [reflexivity|]. split; [cbn; lia|]. split; [reflexivity|].
         split; intros ? E; discriminate E. }
    destruct (collect_parts_ok api (cand_parts c) EmptyString [] h) as (crs & d1 & Hcp & H1 & H2 & H3).
    rewrite bind_then, Hcp in Hrun. cbn [app] in Hrun.
    destruct crs as [|cr crs].
    + cbn [map] in H1.
      assert (Ht : EmptyString +++ concat_str (text_segments (cand_parts c)) =
                   concat_str (text_segments (cand_parts c))) by reflexivity.
      rewrite Ht in Hrun.
      exists d1. split; [|split; [rewrite H3; cbn; lia | split; [now rewrite tool_rounds_no_send, H3|]]].
      { destruct (String.eqb _ EmptyString); injection Hrun as <- <-; reflexivity. }
      split.
      * intros e ->. destruct (String.eqb _ EmptyString); discriminate Hrun.
      * intros t ->. destruct (String.eqb (concat_str (text_segments (cand_parts c))) EmptyString) eqn:E0;
          [discriminate Hrun|].
        injection Hrun as Ht' _. subst t. split; [exact E0|].
        exists c. split; [left; split; [reflexivity | assumption]|]. split; [now symmetry | reflexivity].
    + rewrite bind_then in Hrun. unfold sendMessage in Hrun. cbv zeta in Hrun.
      set (m := MParts (map to_fn_response (cr :: crs))) in Hrun.
      destruct (send ((h ++ d1) ++ [ESend m]) m) as [e|r0] eqn:Hs.
      * injection Hrun as <- <-. exists (d1 ++ [ESend m]).
        rewrite sends_of_app, tool_rounds_app, H3, tool_rounds_no_send by exact H3.
        split; [now rewrite app_assoc|]. split; [cbn; lia|]. split; [reflexivity|]. split.
        -- intros e' E. injection E as <-. exists (h ++ d1), m. split; [reflexivity | exact Hs].
        -- intros t E. discriminate E.
      * destruct (IH r0 _ r h' Hrun) as (d2 & Hh & Hlen & Htr & Herr & Hans).
        exists (d1 ++ ESend m :: d2).
        rewrite sends_of_app, tool_rounds_app, H3, tool_rounds_no_send by exact H3.
        cbn [sends_of flat_map app]. fold (sends_of d2).
        split; [rewrite Hh, <- !app_assoc; reflexivity|].
        split; [cbn; lia|]. split.
        { rewrite <- (app_nil_l (ESend m :: d2)), tool_rounds_app.
          change (tool_rounds [] + tool_rounds ([ESend m] ++ d2) = S (length (sends_of d2))).
          rewrite tool_rounds_app, Htr. reflexivity. }
        split; [exact Herr|].
        intros t Et. destruct (Hans t Et) as (Hne & c' & Hsrc & Hreq & Htxt).
        split; [exact Hne|]. exists c'. split; [|split; assumption].
        right. destruct Hsrc as [[Hc' Hd2]|Hsrc]; [|exact Hsrc].
        exists (h ++ d1), m, d2, r0. split; [rewrite Hh, <- app_assoc; reflexivity|].
        split; [exact Hd2|]. split; [exact Hs | exact Hc'].
Qed.


End LoopFacts.

Lemma runChat_facts api send input h r h' :
  runChat api send input h = (r, h') ->
  exists d, h' = h ++ ESend (MText input) :: d /\ length (sends_of d) <= max_rounds /\
    tool_rounds d = length (sends_of d) /\
    (forall e, r = inl e ->
       exists pre m, h' = pre ++ [ESend m] /\ send (pre ++ [ESend m]) m = inl e) /\
    (forall t, r = inr (Some t) ->
       String.eqb t EmptyString = false /\
       exists pre m post r0 c, h' = pre ++ ESend m :: post /\ sends_of post = [] /\
         send (pre ++ [ESend m]) m = inr r0 /\ find_candidate r0 = Some c /\
         fc_requests (cand_parts c) = [] /\ t = concat_str (text_segments (cand_parts c))).
Proof.
  unfold runChat. rewrite bind_then. unfold sendMessage; cbv zeta.
  destruct (send (h ++ [ESend (MText input)]) (MText input)) as [e|r0] eqn:Hs; intro Hrun.
  - injection Hrun as <- <-. exists [].
    split; [reflexivity|]. split; [cbn; lia|]. split; [reflexivity|]. split.
    + intros e' E. injection E as <-. exists h, (MText input). split; [reflexivity | exact Hs].
    + intros t E. discriminate E.
  - destruct (rounds_loop_facts api send max_rounds r0 _ r h' Hrun)
      as (d & Hh & Hlen & Htr & Herr & Hans).
    exists d. split; [rewrite Hh, <- app_assoc; reflexivity|].
    split; [exact Hlen|]. split; [exact Htr|]. split; [exact Herr|].
    intros t Et. destruct (Hans t Et) as (Hne & c & Hsrc & Hreq & Htxt).
    split; [exact Hne|].
    destruct Hsrc as [[Hc Hd]|(pre & m & post & r1 & Hh1 & Hp & Hs1 & Hc1)].
    + exists h, (MText input), d, r0, c. split; [rewrite Hh, <- app_assoc; reflexivity|]. repeat split; assumption.
    + exists pre, m, post, r1, c. repeat split; assumption.
Qed.


(** runChat (cli.ts), for any model: the user's line is the first
    message, and at most [max_rounds] function-response messages follow,
    so the model is called at most six times per line. *)
Theorem runChat_model_calls_bounded api send input h :
  exists d, snd (runChat api send input h) = h ++ d /\
    hd_error (sends_of d) = Some (MText input) /\
    1 <= length (sends_of d) <= 1 + max_rounds /\
    tool_rounds d = length (sends_of d) - 1.
Proof.
  destruct (runChat api send input h) as [r h'] eqn:E.
  destruct (runChat_facts api send input h r h' E) as (d & Hh & Hlen & Htr & _ & _).
  exists (ESend (MText input) :: d). cbn [snd]. split; [exact Hh|].
  cbn [sends_of flat_map app]. fold (sends_of d). split; [reflexivity|].
  split; [cbn [length]; lia|].
  rewrite <- (app_nil_l (ESend (MText input) :: d)), tool_rounds_app.
  change (tool_rounds [] + tool_rounds ([ESend (MText input)] ++ d) = S (length (sends_of d)) - 1).
  rewrite tool_rounds_app, Htr. cbn. lia.
Qed.

(** runChat (cli.ts) rejects only with an error its last model call
    rejected with: the run ends with a [chat.sendMessage] call, made on
    the run's own trace, that failed with that error; failing tools
    never make it reject. *)
Theorem runChat_rejects_only_on_send api send input h e :
  fst (runChat api send input h) = inl e ->
  exists pre m, snd (runChat api send input h) = pre ++ [ESend m] /\
    send (pre ++ [ESend m]) m = inl e.
Proof.
  destruct (runChat api send input h) as [r h'] eqn:E. cbn [fst snd]. intros ->.
  destruct (runChat_facts api send input h _ h' E) as (d & _ & _ & _ & Herr & _).
  now apply Herr.
Qed.


(** The answer of runChat (cli.ts) is never empty: it is the text of the
    response to the run's last [chat.sendMessage] call, whose chosen
    candidate requested no tool, its text parts joined in order. *)
Theorem runChat_answer_from_model api send input h t :
  fst (runChat api send input h) = inr (Some t) ->
  t <> EmptyString /\
  exists pre m post r0 c, snd (runChat api send input h) = pre ++ ESend m :: post /\
    sends_of post = [] /\
    send (pre ++ [ESend m]) m = inr r0 /\ find_candidate r0 = Some c /\
    fc_requests (cand_parts c) = [] /\ t = concat_str (text_segments (cand_parts c)).
Proof.
  destruct (runChat api send input h) as [r h'] eqn:E. cbn [fst snd]. intros ->.
  destruct (runChat_facts api send input h _ h' E) as (d & _ & _ & _ & _ & Hans).
  destruct (Hans t eq_refl) as (Hne & Hsrc). split; [|exact Hsrc].
  intros ->. discriminate Hne.
Qed.


(** ** The interactive loops stop reading at "exit" *)

(** Both [startChat]s: once a line reads "exit" in any letter case, the
    lines after it are never processed. *)
Theorem startChat_ignores_after_exit api send gen pre line rest rest' :
  String.eqb (toLowerCase line) "exit" = true ->
  (forall h, startChat api send (pre ++ line :: rest) h = startChat api send (pre ++ line :: rest') h) /\
  (forall st, V001.startChat api gen (pre ++ line :: rest) st =
              V001.startChat api gen (pre ++ line :: rest') st).
Proof.
  intros Hx. split.
  - induction pre as [|l pre IH]; intro h.
    + cbn [app startChat]. rewrite Hx. reflexivity.
    + cbn [app]. destruct (String.eqb (toLowerCase l) "exit") eqn:Hl.
      * cbn [startChat]. rewrite Hl. reflexivity.
      * rewrite !(startChat_step api send l _ h Hl).
        destruct (runChat api send l (h ++ [ELog thinking_msg])) as [[e|u] h1]; apply IH.
  - induction pre as [|l pre IH]; intro st.
    + cbn [app V001.startChat]. rewrite Hx. reflexivity.
    + cbn [app]. destruct (String.eqb (toLowerCase l) "exit") eqn:Hl.
      * cbn [V001.startChat]. rewrite Hl. reflexivity.
      * rewrite !(V001_startChat_step api gen l _ st Hl).
        destruct (V001.turn api gen l st) as [[e|u] st1]; apply IH.
Qed.

(** ** The earlier variant: what one turn does to the history *)

Lemma V001_executeFunction_handler_trace api fc h :
  exists d, snd (V001.executeFunction api fc h) = h ++ EDispatch fc :: d /\
    forallb handler_event d = true.
Proof.
  unfold V001.executeFunction. rewrite bind_emit.
  match goal with
  | |- exists d, snd (?m (h ++ [_])) = _ /\ _ =>
      assert (G : grows handler_event m)
  end.
  { unfold getAddressInfo, getAddressTransactions, getAddressTokenBalances,
      getTokenInfo, getTransactionInfo, getLatestBlocks, V001.searchBlockchain, getNetworkStats.
    grow_tac. }
  destruct (G (h ++ [EDispatch fc])) as (d & E & F).
  exists d. split; [| exact F]. rewrite E. now rewrite <- app_assoc.
Qed.

Lemma handler_events_quiet d :
  forallb handler_event d = true -> dispatches_of d = [] /\ gens_of d = [].
Proof.
  induction d as [|e d IH]; [split; reflexivity|].
  destruct e; simpl; try discriminate; exact IH.
Qed.

Lemma gens_of_app a b : gens_of (a ++ b) = gens_of a ++ gens_of b.
Proof. apply flat_map_app. Qed.

Lemma V001_run_calls_effect api fcs st r st' :
  V001.run_calls api fcs st = (r, st') ->
  fst st' = fst st /\
  exists d k, snd st' = snd st ++ d /\ gens_of d = [] /\ dispatches_of d = firstn k fcs /\
    (forall rs, r = inr rs -> k = length fcs /\ length rs = length fcs).
Proof.
  revert st r st'; induction fcs as [|fc fcs IH]; intros st r st' Hr.
  - injection Hr as <- <-. split; [reflexivity|]. exists [], 0.
    rewrite app_nil_r. split; [reflexivity|]. split; [reflexivity|]. split; [reflexivity|].
    intros rs E; injection E as <-; split; reflexivity.
  - cbn [V001.run_calls] in Hr. rewrite V001_bind_log, bind_then in Hr.
    unfold V001.liftM in Hr. cbn [fst snd] in Hr.
    destruct (V001_executeFunction_handler_trace api fc
               (snd st ++ [ELog ("🔧 Executing: " +++ name_str (fc_name fc) +++ "...")]))
      as (d1 & E1 & F1).
    destruct (handler_events_quiet d1 F1) as [D1 G1].
    destruct (V001.executeFunction api fc _) as [[e|v] tr1]; cbn [snd] in E1; subst tr1.
    + injection Hr as <- <-. split; [reflexivity|].
      exists ([ELog ("🔧 Executing: " +++ name_str (fc_name fc) +++ "...")] ++ EDispatch fc :: d1), 1.
      split; [now rewrite app_assoc|].
      split; [rewrite gens_of_app; cbn; exact G1|].
      split; [rewrite dispatches_of_app; cbn; fold (dispatches_of d1); now rewrite D1|].
      intros rs E; discriminate E.
    + rewrite bind_then in Hr.
      destruct (V001.run_calls api fcs _) as [[e|rs] st2] eqn:Er;
        injection Hr as <- <-;
        destruct (IH _ _ _ Er) as (Hf & d2 & k & Hs & Hg & Hd & Hk);
        (split; [exact Hf|]);
        exists ([ELog ("🔧 Executing: " +++ name_str (fc_name fc) +++ "...")] ++ EDispatch fc :: d1 ++ d2), (S k);
        (split; [rewrite Hs; cbn [snd]; now rewrite <- !app_assoc|]);
        (split; [rewrite gens_of_app; cbn; fold (gens_of (d1 ++ d2)); now rewrite gens_of_app, G1, Hg|]);
        (split; [rewrite dispatches_of_app; cbn; fold (dispatches_of (d1 ++ d2));
                 now rewrite dispatches_of_app, D1, Hd|]).
      * intros rs' E; discriminate E.
      * intros rs' E. injection E as <-. destruct (Hk rs eq_refl) as [H1 H2].
        cbn [length]. split; congruence.
Qed.

Lemma V001_turn_cases api gen line st :
  V001.turn api gen line st =
  match gen (snd st ++ [ELog thinking_msg; EGen (fst st ++ [mkEntry "user" [HText line]])])
            (fst st ++ [mkEntry "user" [HText line]]) with
  | inl e => (inl e, (fst st ++ [mkEntry "user" [HText line]],
                      snd st ++ [ELog thinking_msg; EGen (fst st ++ [mkEntry "user" [HText line]])]))
  | inr r0 =>
      match V001.functionCalls r0 with
      | [] =>
          (inr tt, (V001.trim ((fst st ++ [mkEntry "user" [HText line]]) ++
                               [mkEntry "model" [HText (V001.or_no_response (V001.text r0))]]),
                    (snd st ++ [ELog thinking_msg; EGen (fst st ++ [mkEntry "user" [HText line]])]) ++
                      [ELog ("🤖 Assistant: " +++ V001.or_no_response (V001.text r0) +++ nl)]))
      | fcs =>
          match V001.run_calls api fcs
                  (fst st ++ [mkEntry "user" [HText line]],
                   snd st ++ [ELog thinking_msg; EGen (fst st ++ [mkEntry "user" [HText line]])]) with
          | (inl e, st2) => (inl e, st2)
          | (inr frs, st2) =>
              match gen (snd st2 ++ [EGen ((fst st2 ++ [mkEntry "model" (map HCall fcs)]) ++
                          [mkEntry "user" (map (fun fr => HResp (fst fr) (snd fr)) frs)])])
                        ((fst st2 ++ [mkEntry "model" (map HCall fcs)]) ++
                          [mkEntry "user" (map (fun fr => HResp (fst fr) (snd fr)) frs)]) with
              | inl e =>
                  (inl e, ((fst st2 ++ [mkEntry "model" (map HCall fcs)]) ++
                             [mkEntry "user" (map (fun fr => HResp (fst fr) (snd fr)) frs)],
                           snd st2 ++ [EGen ((fst st2 ++ [mkEntry "model" (map HCall fcs)]) ++
                             [mkEntry "user" (map (fun fr => HResp (fst fr) (snd fr)) frs)])]))
              | inr r1 =>
                  (inr tt, (V001.trim (((fst st2 ++ [mkEntry "model" (map HCall fcs)]) ++
                              [mkEntry "user" (map (fun fr => HResp (fst fr) (snd fr)) frs)]) ++
                              [mkEntry "model" [HText (V001.or_no_response (V001.text r1))]]),
                            (snd st2 ++ [EGen ((fst st2 ++ [mkEntry "model" (map HCall fcs)]) ++
                               [mkEntry "user" (map (fun fr => HResp (fst fr) (snd fr)) frs)])]) ++
                              [ELog ("🤖 Assistant: " +++ V001.or_no_response (V001.text r1) +++ nl)]))
              end
          end
      end
  end.
Proof.
  unfold V001.turn. rewrite V001_bind_log, V001_bind_push, V001_bind_gen. cbn [fst snd].
  rewrite <- app_assoc. cbn [app].
  destruct (gen _ _) as [e|r0]; [reflexivity|].
  rewrite bind_then. destruct (V001.functionCalls r0) as [|fc fcs]; [reflexivity|].
  rewrite bind_then.
  destruct (V001.run_calls api (fc :: fcs) _) as [[e|frs] st2]; [reflexivity|].
  rewrite V001_bind_push, V001_bind_push, V001_bind_gen. cbn [fst snd].
  destruct (gen _ _) as [e|r1]; reflexivity.
Qed.

Lemma trim_length hs : length (V001.trim hs) = Nat.min 40 (length hs).
Proof.
  unfold V001.trim. destruct (Nat.ltb_spec 40 (length hs)).
  - rewrite length_skipn. lia.
  - lia.
Qed.

Lemma trim_suffix hs : exists dropped, hs = dropped ++ V001.trim hs.
Proof.
  unfold V001.trim. destruct (Nat.ltb 40 (length hs)).
  - exists (firstn (length hs - 40) hs). symmetry. apply firstn_skipn.
  - exists []. reflexivity.
Qed.

Lemma or_no_response_nonempty t : V001.or_no_response t <> EmptyString.
Proof.
  unfold V001.or_no_response. destruct t as [s|]; [|discriminate].
  destruct (String.eqb_spec s EmptyString); [discriminate | assumption].
Qed.

(** A completed turn of the earlier variant: the history is the newest
    (at most 40) entries of the old history, the user's line, the call
    and result entries of a tool round if there was one (one result per
    call, in call order), and the reply, which is never empty. *)
Theorem V001_turn_success_history api gen line st st' :
  V001.turn api gen line st = (inr tt, st') ->
  exists added msg,
    fst st' = V001.trim ((fst st ++ [mkEntry "user" [HText line]]) ++ added ++
                         [mkEntry "model" [HText msg]]) /\
    (exists dropped, (fst st ++ [mkEntry "user" [HText line]]) ++ added ++
                     [mkEntry "model" [HText msg]] = dropped ++ fst st') /\
    length (fst st') <= 40 /\
    msg <> EmptyString /\
    (added = [] \/
     exists fcs frs, fcs <> [] /\ map fst frs = map fc_name fcs /\
       added = [mkEntry "model" (map HCall fcs);
                mkEntry "user" (map (fun fr => HResp (fst fr) (snd fr)) frs)]).
Proof.
  intro Hr. rewrite V001_turn_cases in Hr.
  destruct (gen _ _) as [e|r0]; [discriminate|].
  destruct (V001.functionCalls r0) as [|fc fcs] eqn:F.
  - injection Hr as Hst. subst st'. cbn [fst].
    exists [], (V001.or_no_response (V001.text r0)). cbn [app].
    split; [reflexivity|]. split; [apply trim_suffix|].
    split; [rewrite trim_length; lia|]. split; [apply or_no_response_nonempty | now left].
  - cbv zeta in Hr.
    destruct (V001.run_calls api (fc :: fcs) _) as [[e|frs] st2] eqn:R; [discriminate|].
    destruct (V001_run_calls_effect api _ _ _ _ R) as [Hf _].
    destruct (V001_run_calls_order api _ _ _ _ R) as [Hn _].
    cbn [fst] in Hf.
    destruct (gen _ _) as [e|r1]; [discriminate|].
    injection Hr as Hst. subst st'. cbn [fst].
    exists [mkEntry "model" (map HCall (fc :: fcs));
            mkEntry "user" (map (fun fr => HResp (fst fr) (snd fr)) frs)],
           (V001.or_no_response (V001.text r1)).
    rewrite Hf, <- !app_assoc. cbn [app].
    split; [reflexivity|]. split; [apply trim_suffix|].
    split; [rewrite trim_length; lia|]. split; [apply or_no_response_nonempty|].
    right. exists (fc :: fcs), frs. split; [discriminate|]. split; [exact Hn | reflexivity].
Qed.

(** A failed turn of the earlier variant is not trimmed and adds no
    reply: the user's line stays in the history, followed by the call and
    result entries when the second model call was the one that failed. *)
Theorem V001_turn_failure_history api gen line st e st' :
  V001.turn api gen line st = (inl e, st') ->
  exists added, fst st' = (fst st ++ [mkEntry "user" [HText line]]) ++ added /\
    (added = [] \/
     exists fcs frs, fcs <> [] /\
       added = [mkEntry "model" (map HCall fcs);
                mkEntry "user" (map (fun fr => HResp (fst fr) (snd fr)) frs)]).
Proof.
  intro Hr. rewrite V001_turn_cases in Hr.
  destruct (gen _ _) as [e0|r0].
  - injection Hr as _ Hst. subst st'. exists []. split; [cbn; now rewrite app_nil_r | now left].
  - destruct (V001.functionCalls r0) as [|fc fcs] eqn:F; [discriminate|].
    cbv zeta in Hr.
    destruct (V001.run_calls api (fc :: fcs) _) as [[e1|frs] st2] eqn:R;
      destruct (V001_run_calls_effect api _ _ _ _ R) as [Hf _]; cbn [fst] in Hf.
    + injection Hr as _ Hst. subst st'. exists []. split; [rewrite Hf; now rewrite app_nil_r | now left].
    + destruct (gen _ _) as [e2|r1]; [|discriminate].
      injection Hr as _ Hst. subst st'. cbn [fst].
      exists [mkEntry "model" (map HCall (fc :: fcs));
              mkEntry "user" (map (fun fr => HResp (fst fr) (snd fr)) frs)].
      split; [rewrite Hf, <- !app_assoc; reflexivity|].
      right. exists (fc :: fcs), frs. split; [discriminate | reflexivity].
Qed.


Lemma bind_assoc_at {S A B C} (m : ST S A) (k1 : A -> ST S B) (k2 : B -> ST S C) s :
  bind (bind m k1) k2 s = bind m (fun a => bind (k1 a) k2) s.
Proof. unfold bind. destruct (m s) as [[e|a] s']; reflexivity. Qed.

Lemma search_result_run q d l ys er :
  field d "items" = JArr l ->
  mapM (search_item (JStr q)) (firstn 10 l) tt = (inr ys, tt) ->
  findM ens_candidate (firstn 10 l) tt = (inr er, tt) ->
  fst (search_result (JStr q) d tt) = fst (
    (ra <- (if ends_with_str q ".eth" then
              if truthy er then ah <- prop er "address_hash" ;; jorM ah (prop er "address")
              else ret JNull
            else ret JNull) ;;
     ret (JObj [("query", JStr q); ("resultsCount", JNum (Z.of_nat (length l)));
                ("displayedResults", JNum (Z.of_nat (length ys))); ("results", JArr ys);
                ("resolvedAddress", ra);
                ("truncated", JBool (Z.ltb 10 (Z.of_nat (length l))))])) tt).
Proof.
  intros Hi Hm Hf. destruct (field_items_obj d l Hi) as [D1 D2].
  unfold search_result. rewrite (prop_nonnull d _ D1 D2), bind_ret. cbv beta zeta.
  rewrite Hi. cbn [jor truthy slice0]. rewrite bind_ret. cbv beta.
  rewrite slice_end_10, firstn_min_length. cbn [jmap].
  rewrite bind_then, bind_then, Hm. cbn [ret ends_with]. rewrite bind_ret. cbv beta.
  destruct (ends_with_str q ".eth").
  - cbn [jfind]. rewrite bind_assoc_at, bind_then, Hf. reflexivity.
  - reflexivity.
Qed.

Lemma search_result_fail q d l e :
  field d "items" = JArr l ->
  mapM (search_item (JStr q)) (firstn 10 l) tt = (inl e, tt) ->
  fst (search_result (JStr q) d tt) = inl e.
Proof.
  intros Hi Hm. destruct (field_items_obj d l Hi) as [D1 D2].
  unfold search_result. rewrite (prop_nonnull d _ D1 D2), bind_ret. cbv beta zeta.
  rewrite Hi. cbn [jor truthy slice0]. rewrite bind_ret. cbv beta.
  rewrite slice_end_10, firstn_min_length. cbn [jmap].
  rewrite bind_then, bind_then, Hm. reflexivity.
Qed.

Lemma succeeds_ends_with q s : succeeds (ends_with (S := unit) (JStr q) s).
Proof. apply succeeds_ret. Qed.

Lemma search_item_ok q x : x <> JUndef -> x <> JNull -> succeeds (search_item (JStr q) x).
Proof.
  intros H1 H2. unfold search_item.
  repeat first
    [ apply succeeds_bind; intros
    | apply succeeds_ret
    | apply succeeds_oprop
    | apply succeeds_jorM
    | apply succeeds_ends_with
    | apply succeeds_prop; assumption
    | match goal with H : truthy ?v = true |- succeeds (prop ?v _) =>
        apply succeeds_prop_truthy; exact H end
    | match goal with |- succeeds (let _ := _ in _) => cbv zeta end
    | match goal with |- succeeds (if ?b then _ else _) => destruct b eqn:? end ].
Qed.

Lemma ens_address_ok er :
  succeeds (if truthy er then ah <- prop er "address_hash" ;; jorM ah (prop er "address")
            else ret JNull).
Proof.
  destruct (truthy er) eqn:T; [|apply succeeds_ret].
  apply succeeds_bind; [now apply succeeds_prop_truthy | intros a].
  apply succeeds_jorM. now apply succeeds_prop_truthy.
Qed.

(** searchBlockchain (cli.ts), on a 200 answer whose [items] is an array:
    only the first ten hits are read. If none of them is [null] the
    result echoes the query, counts all hits in [resultsCount], shows the
    processed first ten in [results] and their number in
    [displayedResults]; a [null] among them makes the result an
    error-tagged string. *)
Theorem searchBlockchain_counts api q h d l :
  api (h ++ [EHandler "searchBlockchain"; EApi (search_req (JStr q))]) (search_req (JStr q)) =
    inr (mkResp 200 d) ->
  field d "items" = JArr l ->
  exists v,
    searchBlockchain api (JStr q) h =
      (inr v, h ++ [EHandler "searchBlockchain"; EApi (search_req (JStr q))]) /\
    ((forall x, In x (firstn 10 l) -> x <> JUndef /\ x <> JNull) ->
     exists ys ra,
       v = JObj [("query", JStr q); ("resultsCount", JNum (Z.of_nat (length l)));
                 ("displayedResults", JNum (Z.of_nat (length ys))); ("results", JArr ys);
                 ("resolvedAddress", ra);
                 ("truncated", JBool (Z.ltb 10 (Z.of_nat (length l))))] /\
       Forall2 (fun x y => fst (search_item (JStr q) x tt) = inr y) (firstn 10 l) ys) /\
    ((exists x, In x (firstn 10 l) /\ (x = JUndef \/ x = JNull)) -> is_error_tagged v = true).
Proof.
  intros Hapi Hi. unfold searchBlockchain. rewrite api_handler_run, Hapi.
  cbn [status data negb Nat.eqb]. eexists; split; [reflexivity|]. split.
  - intros Hall.
    destruct (mapM_all (search_item (JStr q)) (firstn 10 l)) as [ys Hys].
    { intros x Hx. destruct (Hall x Hx). now apply search_item_ok. }
    assert (Hm : mapM (search_item (JStr q)) (firstn 10 l) tt = (inr ys, tt)).
    { apply mapM_Forall2 in Hys. destruct (mapM _ _ tt) as [r []]. cbn [fst] in Hys. now subst r. }
    assert (Hf : findM ens_candidate (firstn 10 l) tt =
                 (inr (match find carries_ens_address (firstn 10 l) with Some x => x | None => JUndef end), tt)).
    { rewrite <- findM_find by (intros x Hx; destruct (Hall x Hx); now apply ens_candidate_spec).
      destruct (findM ens_candidate (firstn 10 l) tt) as [r []]. reflexivity. }
    rewrite (search_result_run q d l ys _ Hi Hm Hf).
    destruct (ends_with_str q ".eth").
    + destruct (ens_address_ok (match find carries_ens_address (firstn 10 l) with
                                | Some x => x | None => JUndef end)) as [ra Hra].
      exists ys, ra. split; [|exact Hys].
      rewrite bind_then. destruct (_ tt) as [r []] eqn:E. cbn [fst] in Hra. subst r. reflexivity.
    + exists ys, JNull. split; [reflexivity | exact Hys].
  - intros (x & Hx & Hn).
    destruct (mapM (search_item (JStr q)) (firstn 10 l) tt) as [[e|ys] []] eqn:Hm.
    + rewrite (search_result_fail q d l e Hi Hm). reflexivity.
    + exfalso. assert (Hys : fst (mapM (search_item (JStr q)) (firstn 10 l) tt) = inr ys)
        by now rewrite Hm.
      apply mapM_Forall2 in Hys. destruct (Forall2_in_l _ _ _ x Hys Hx) as (y & Hy).
      destruct (search_item_nonnull _ _ _ Hy). destruct Hn; contradiction.
Qed.



(** ** Witnesses of the further properties *)

Lemma executeFunction_unknown_name_witness :
  (match fc_name (mkCall None (Some "getBalance") JUndef) with
   | Some n => known_tool n | None => false end) = false /\
  is_error_tagged (JStr (unknown_function_msg (Some "getBalance"))) = true /\
  executeFunction api_ok (mkCall None (Some "getBalance") JUndef) [] =
    (inr (JStr (unknown_function_msg (Some "getBalance"))),
     [] ++ [EDispatch (mkCall None (Some "getBalance") JUndef)]) /\
  V001.executeFunction api_ok (mkCall None (Some "getBalance") JUndef) [] =
    (inr (JStr (unknown_function_msg (Some "getBalance"))),
     [] ++ [EDispatch (mkCall None (Some "getBalance") JUndef)]).
Proof.
  split; [reflexivity|].
  apply (executeFunction_unknown_name api_ok (mkCall None (Some "getBalance") JUndef) []).
  reflexivity.
Defined.


Lemma executeFunction_falsy_args_witness :
  exists v d,
    executeFunction api_ok (mkCall None (Some "getAddressInfo") JNull) [] =
      (inr v, [] ++ EDispatch (mkCall None (Some "getAddressInfo") JNull) :: d) /\
    executeFunction api_ok (mkCall None (Some "getAddressInfo") (JObj [])) [] =
      (inr v, [] ++ EDispatch (mkCall None (Some "getAddressInfo") (JObj [])) :: d).
Proof.
  apply (executeFunction_falsy_args api_ok None (Some "getAddressInfo") JNull []);
    [intros; reflexivity | reflexivity].
Defined.

Lemma getAddressTransactions_first_items_witness :
  exists v,
    getAddressTransactions api_three (JStr "0xabc") (JNum 2) [] =
      (inr v, [] ++ [EHandler "getAddressTransactions"; EApi (tx_req (JStr "0xabc"))]) /\
    ((forall x, In x (firstn (slice_count 3 2) [JObj [("hash", JStr "0x1")];
                                               JObj [("hash", JStr "0x2")];
                                               JObj [("hash", JStr "0x3")]]) ->
        x <> JUndef /\ x <> JNull) ->
     exists ys, v = JArr ys /\
       Forall2 (fun tx y => fst (tx_summary tx tt) = inr y)
         (firstn (slice_count 3 2) [JObj [("hash", JStr "0x1")];
                                    JObj [("hash", JStr "0x2")];
                                    JObj [("hash", JStr "0x3")]]) ys) /\
    ((exists x, In x (firstn (slice_count 3 2) [JObj [("hash", JStr "0x1")];
                                                 JObj [("hash", JStr "0x2")];
                                                 JObj [("hash", JStr "0x3")]]) /\
        (x = JUndef \/ x = JNull)) ->
     is_error_tagged v = true).
Proof.
  apply (getAddressTransactions_first_items api_three (JStr "0xabc") (JNum 2) 2 []
           (JObj [("items", JArr [JObj [("hash", JStr "0x1")];
                                  JObj [("hash", JStr "0x2")];
                                  JObj [("hash", JStr "0x3")]])])
           [JObj [("hash", JStr "0x1")]; JObj [("hash", JStr "0x2")]; JObj [("hash", JStr "0x3")]]);
    [reflexivity | reflexivity | right; reflexivity].
Defined.

Lemma getLatestBlocks_first_items_witness :
  exists v,
    getLatestBlocks api_three JUndef [] =
      (inr v, [] ++ [EHandler "getLatestBlocks"; EApi blocks_req]) /\
    ((forall x, In x (firstn (slice_count 3 5) [JObj [("hash", JStr "0x1")];
                                               JObj [("hash", JStr "0x2")];
                                               JObj [("hash", JStr "0x3")]]) ->
        x <> JUndef /\ x <> JNull) ->
     exists ys, v = JArr ys /\
       Forall2 (fun b y => fst (block_summary b tt) = inr y)
         (firstn (slice_count 3 5) [JObj [("hash", JStr "0x1")];
                                    JObj [("hash", JStr "0x2")];
                                    JObj [("hash", JStr "0x3")]]) ys) /\
    ((exists x, In x (firstn (slice_count 3 5) [JObj [("hash", JStr "0x1")];
                                                 JObj [("hash", JStr "0x2")];
                                                 JObj [("hash", JStr "0x3")]]) /\
        (x = JUndef \/ x = JNull)) ->
     is_error_tagged v = true).
Proof.
  apply (getLatestBlocks_first_items api_three JUndef 5 []
           (JObj [("items", JArr [JObj [("hash", JStr "0x1")];
                                  JObj [("hash", JStr "0x2")];
                                  JObj [("hash", JStr "0x3")]])])
           [JObj [("hash", JStr "0x1")]; JObj [("hash", JStr "0x2")]; JObj [("hash", JStr "0x3")]]);
    [reflexivity | reflexivity | left; split; reflexivity].
Defined.

Lemma list_tools_missing_items_witness :
  (api_ok ([] ++ [EHandler "getAddressTransactions"; EApi (tx_req (JStr "0xabc"))])
     (tx_req (JStr "0xabc")) = inr (mkResp 200 (JObj [])) ->
   fst (getAddressTransactions api_ok (JStr "0xabc") JUndef []) = inr (JArr [])) /\
  (api_ok ([] ++ [EHandler "getLatestBlocks"; EApi blocks_req]) blocks_req =
     inr (mkResp 200 (JObj [])) ->
   fst (getLatestBlocks api_ok JUndef []) = inr (JArr [])).
Proof.
  apply (list_tools_missing_items api_ok (JStr "0xabc") JUndef JUndef [] (JObj []));
    [discriminate | discriminate | left; reflexivity].
Defined.

Lemma runChat_rejects_only_on_send_witness :
  fst (runChat api_ok send_fail "q" []) = inl (type_error "quota") /\
  exists pre m, snd (runChat api_ok send_fail "q" []) = pre ++ [ESend m] /\
    send_fail (pre ++ [ESend m]) m = inl (type_error "quota").
Proof.
  split; [vm_compute; reflexivity|].
  apply (runChat_rejects_only_on_send api_ok send_fail "q" []). vm_compute. reflexivity.
Defined.

Lemma runChat_answer_from_model_witness :
  fst (runChat api_ok (send_text "hello") "q" []) = inr (Some "hello") /\
  "hello" <> EmptyString /\
  exists pre m post r0 c, snd (runChat api_ok (send_text "hello") "q" []) = pre ++ ESend m :: post /\
    sends_of post = [] /\
    send_text "hello" (pre ++ [ESend m]) m = inr r0 /\ find_candidate r0 = Some c /\
    fc_requests (cand_parts c) = [] /\ "hello" = concat_str (text_segments (cand_parts c)).
Proof.
  split; [vm_compute; reflexivity|].
  apply (runChat_answer_from_model api_ok (send_text "hello") "q" []). vm_compute. reflexivity.
Defined.

Lemma startChat_ignores_after_exit_witness :
  (forall h, startChat api_ok (send_text "hello") (["q"] ++ "Exit" :: []) h =
             startChat api_ok (send_text "hello") (["q"] ++ "Exit" :: ["more"]) h) /\
  (forall st, V001.startChat api_ok gen_script (["q"] ++ "Exit" :: []) st =
              V001.startChat api_ok gen_script (["q"] ++ "Exit" :: ["more"]) st).
Proof.
  apply (startChat_ignores_after_exit api_ok (send_text "hello") gen_script ["q"] "Exit" [] ["more"]).
  reflexivity.
Defined.

Lemma V001_turn_success_history_witness :
  exists st', V001.turn api_ok gen_script "tool" ([], []) = (inr tt, st') /\
  exists added msg,
    fst st' = V001.trim (([] ++ [mkEntry "user" [HText "tool"]]) ++ added ++
                         [mkEntry "model" [HText msg]]) /\
    (exists dropped, ([] ++ [mkEntry "user" [HText "tool"]]) ++ added ++
                     [mkEntry "model" [HText msg]] = dropped ++ fst st') /\
    length (fst st') <= 40 /\
    msg <> EmptyString /\
    (added = [] \/
     exists fcs frs, fcs <> [] /\ map fst frs = map fc_name fcs /\
       added = [mkEntry "model" (map HCall fcs);
                mkEntry "user" (map (fun fr => HResp (fst fr) (snd fr)) frs)]).
Proof.
  eexists. split; [vm_compute; reflexivity|].
  apply (V001_turn_success_history api_ok gen_script "tool" ([], [])). vm_compute. reflexivity.
Defined.

Lemma V001_turn_failure_history_witness :
  exists st', V001.turn api_ok gen_fail "q" ([], []) = (inl (type_error "quota"), st') /\
  exists added, fst st' = ([] ++ [mkEntry "user" [HText "q"]]) ++ added /\
    (added = [] \/
     exists fcs frs, fcs <> [] /\
       added = [mkEntry "model" (map HCall fcs);
                mkEntry "user" (map (fun fr => HResp (fst fr) (snd fr)) frs)]).
Proof.
  eexists. split; [vm_compute; reflexivity|].
  apply (V001_turn_failure_history api_ok gen_fail "q" ([], []) (type_error "quota")).
  vm_compute. reflexivity.
Defined.

Lemma searchBlockchain_counts_witness :
  exists v,
    searchBlockchain api_search (JStr "vitalik.eth") [] =
      (inr v, [] ++ [EHandler "searchBlockchain"; EApi (search_req (JStr "vitalik.eth"))]) /\
    ((forall x, In x (firstn 10 search_hits) -> x <> JUndef /\ x <> JNull) ->
     exists ys ra,
       v = JObj [("query", JStr "vitalik.eth"); ("resultsCount", JNum (Z.of_nat (length search_hits)));
                 ("displayedResults", JNum (Z.of_nat (length ys))); ("results", JArr ys);
                 ("resolvedAddress", ra);
                 ("truncated", JBool (Z.ltb 10 (Z.of_nat (length search_hits))))] /\
       Forall2 (fun x y => fst (search_item (JStr "vitalik.eth") x tt) = inr y) (firstn 10 search_hits) ys) /\
    ((exists x, In x (firstn 10 search_hits) /\ (x = JUndef \/ x = JNull)) -> is_error_tagged v = true).
Proof.
  apply (searchBlockchain_counts api_search "vitalik.eth" [] (JObj [("items", JArr search_hits)]) search_hits);
    reflexivity.
Defined.

